(** * ai-review-system: a shallow embedding of the question bank

    The development follows the Python sources:
    - [PyStr]   the [str] operations the code calls (strip, upper, replace, ...);
    - [App]     answer grading of [app.py] ([normalize_choice]);
    - [Py]      exceptions and numbers ([int], [float]) as far as the code
                computes with them;
    - [Json]    decoded JSON values, as [json.loads] and [resp.json()] return them;
    - [Client]  [coze_client.py] / [dashscope_client.py] (the two files differ in
                the class name and in comments only);
    - [Models]  [models.py] over the three tables of [database.py];
    - [Samples] concrete replies, drafts and a small database.
    The properties follow the definitions. *)

From Stdlib Require Import ZArith NArith List String Ascii Floats Lia Bool.
From stdpp Require Import base decidable option list sets gmap sorting.

Set Warnings "-register-all,-inexact-float".
Local Open Scope N_scope.

(* ===================================================================== *)
(** ** Python strings *)
(* ===================================================================== *)

Module PyStr.

(** A Python [str] is a sequence of Unicode code points. *)
Abbreviation pystr := (list N).

(** An ASCII literal as a [str]. *)
Definition ustr (s : string) : pystr := N_of_ascii <$> list_ascii_of_string s.
Arguments ustr s%_string.

(** [str.isspace] on one character: the characters [str.strip()] removes. *)
Definition isspace (c : N) : bool :=
  ((0x09 <=? c) && (c <=? 0x0D)) || ((0x1C <=? c) && (c <=? 0x20))
  || (c =? 0x85) || (c =? 0xA0) || (c =? 0x1680)
  || ((0x2000 <=? c) && (c <=? 0x200A))
  || (c =? 0x2028) || (c =? 0x2029) || (c =? 0x202F) || (c =? 0x205F)
  || (c =? 0x3000).

Fixpoint lstrip_with (p : N -> bool) (s : pystr) : pystr :=
  match s with
  | [] => []
  | c :: r => if p c then lstrip_with p r else s
  end.

Definition rstrip_with (p : N -> bool) (s : pystr) : pystr :=
  reverse (lstrip_with p (reverse s)).

(** [s.strip()] *)
Definition strip (s : pystr) : pystr := rstrip_with isspace (lstrip_with isspace s).

(** [s.strip(chars)] *)
Definition strip_chars (chars s : pystr) : pystr :=
  let p := fun c => bool_decide (c ∈ chars) in
  rstrip_with p (lstrip_with p s).

(** [s.startswith(prefix)] *)
Fixpoint startswith (s prefix : pystr) : bool :=
  match prefix, s with
  | [], _ => true
  | _ :: _, [] => false
  | a :: p, c :: r => (a =? c) && startswith r p
  end.

(** [s.replace(old, new, 1)]: the leftmost occurrence of [old] only. *)
Fixpoint replace_first (old new s : pystr) : pystr :=
  if startswith s old then new ++ drop (length old) s
  else match s with
       | [] => []
       | c :: r => c :: replace_first old new r
       end.

(** Comparison of two [str]: lexicographic on code points. *)
Fixpoint str_compare (a b : pystr) : comparison :=
  match a, b with
  | [], [] => Eq
  | [], _ :: _ => Lt
  | _ :: _, [] => Gt
  | x :: a', y :: b' =>
      match x ?= y with
      | Eq => str_compare a' b'
      | o => o
      end
  end.

Definition str_le (a b : pystr) : bool :=
  match str_compare a b with Gt => false | _ => true end.

Definition str_lt (a b : pystr) : bool :=
  match str_compare a b with Lt => true | _ => false end.

(** Truth value of a [str] (and of a [list]): non-empty. *)
Definition nonempty {A} (s : list A) : bool :=
  match s with [] => false | _ => true end.

Section Upper.

(** [str.upper()] uses the case mapping of the Unicode database. The part
    for ASCII and Latin-1 is written out; the mapping of the code points
    from U+0100 on is the parameter [unicode_upper]. *)
Variable unicode_upper : N -> pystr.

Definition ascii_upper (c : N) : N :=
  if (0x61 <=? c) && (c <=? 0x7A) then c - 0x20 else c.

Definition latin1_upper (c : N) : pystr :=
  if c =? 0xB5 then [0x39C]
  else if c =? 0xDF then [0x53; 0x53]
  else if c =? 0xFF then [0x178]
  else if (0xE0 <=? c) && (c <=? 0xFE) && negb (c =? 0xF7) then [c - 0x20]
  else [c].

Definition upper_char (c : N) : pystr :=
  if c <? 0x80 then [ascii_upper c]
  else if c <? 0x100 then latin1_upper c
  else unicode_upper c.

(** [s.upper()] *)
Definition upper (s : pystr) : pystr := mjoin (upper_char <$> s).

End Upper.

End PyStr.

Import PyStr.

(* ===================================================================== *)
(** ** app.py: grading of single-choice answers *)
(* ===================================================================== *)

Module App.

Section Grading.

Variable unicode_upper : N -> pystr.

(** [normalize_choice], the local function of [api_submit_answer]. *)
Definition normalize_choice (s : pystr) : pystr :=
  let s := strip s in
  if negb (nonempty s) then []
  else
    let first := upper unicode_upper (take 1 s) in
    if str_le (ustr "A") first && str_le first (ustr "Z") then first
    else s.

(** The [else] branch of [api_submit_answer] on two strings:
    [ua = user_answer.strip()], [sa = answer.strip()],
    [is_correct = normalize_choice(ua) == normalize_choice(sa)]. *)
Definition grade_single_choice (user_answer stored_answer : pystr) : bool :=
  let ua := strip user_answer in
  let sa := strip stored_answer in
  bool_decide (normalize_choice ua = normalize_choice sa).

(** The normalisation as the specification words it: the key is the
    upper-cased first character when that is one letter A..Z, and the
    trimmed string otherwise. *)
Definition is_letter_AZ (u : pystr) : bool :=
  match u with
  | [l] => (0x41 <=? l) && (l <=? 0x5A)
  | _ => false
  end.

Definition normalize_spec (s : pystr) : pystr :=
  let t := strip s in
  match t with
  | [] => []
  | c :: _ =>
      let u := upper_char unicode_upper c in
      if is_letter_AZ u then u else t
  end.

Definition grade_spec (user_answer stored_answer : pystr) : bool :=
  bool_decide (normalize_spec user_answer = normalize_spec stored_answer).

End Grading.

End App.

Import App.



(* ===================================================================== *)
(** ** Python exceptions and numbers *)
(* ===================================================================== *)

Module Py.

(** The exception classes the modelled code can raise. *)
Inductive exn : Type :=
  | AttributeError | TypeError | ValueError | OverflowError
  | ZeroDivisionError | JSONDecodeError | RequestException | HTTPError.

(** A computation returns a value or raises. *)
Inductive result (A : Type) : Type :=
  | Ok (a : A)
  | Raise (e : exn).
Arguments Ok {A} a.
Arguments Raise {A} e.

#[export] Instance result_ret : MRet result := fun A a => Ok a.
#[export] Instance result_bind : MBind result := fun A B f m =>
  match m with
  | Ok a => f a
  | Raise e => Raise e
  end.
#[export] Instance result_fmap : FMap result := fun A B f m =>
  match m with
  | Ok a => Ok (f a)
  | Raise e => Raise e
  end.

(** [try: body except Exception as e: handler(e)] *)
Definition try_except {A} (body : result A) (handler : exn -> result A) : result A :=
  match body with
  | Ok a => Ok a
  | Raise e => handler e
  end.

(** An absent value raises [e]. *)
Definition or_raise {A} (e : exn) (o : option A) : result A :=
  match o with
  | Some a => Ok a
  | None => Raise e
  end.

(** A Python number: [int] (unbounded) or [float] (binary64). *)
Inductive pynum : Type :=
  | PyInt (z : Z)
  | PyFloat (f : float).

(** An [int] as an exact binary floating-point datum, exponent 0. *)
Definition int_as_spec_float (z : Z) : spec_float :=
  match z with
  | Z0 => S754_zero false
  | Zpos p => S754_finite false p 0
  | Zneg p => S754_finite true p 0
  end.

(** The least magnitude that rounds to infinity: [DBL_MAX] plus half a
    unit in its last place. *)
Definition overflow_threshold : Z := (2 ^ 1024 - 2 ^ 970)%Z.

(** [float(z)] for an [int]: the nearest binary64 value (ties to even);
    [OverflowError] when the magnitude is too large. *)
Definition float_of_int (z : Z) : result float :=
  if (overflow_threshold <=? Z.abs z)%Z then Raise OverflowError
  else Ok (SF2Prim (binary_normalize prec emax z 0 false)).

(** The quotient of two [int], rounded to the nearest binary64 value. *)
Definition quotient (a b : Z) : float :=
  SF2Prim (SFdiv prec emax (int_as_spec_float a) (int_as_spec_float b)).

(** [a / b] on two [int]: the correctly rounded quotient;
    [ZeroDivisionError] when [b = 0], [OverflowError] when the quotient is
    too large for a [float]. *)
Definition int_truediv (a b : Z) : result float :=
  if (b =? 0)%Z then Raise ZeroDivisionError
  else if (overflow_threshold * Z.abs b <=? Z.abs a)%Z then Raise OverflowError
  else Ok (quotient a b).

(** A float between 0.0 and 1.0 ([0.0 <= x <= 1.0] in Python). *)
Definition in_unit_interval (x : float) : Prop :=
  PrimFloat.leb 0%float x = true ∧ PrimFloat.leb x 1%float = true.

(** [min(a, b)] and [max(a, b)] of two floats: the first argument unless
    the second is strictly smaller (greater). *)
Definition py_min (a b : float) : float := if PrimFloat.ltb b a then b else a.
Definition py_max (a b : float) : float := if PrimFloat.ltb a b then b else a.

End Py.

Import Py.

(* ===================================================================== *)
(** ** Decoded JSON values *)
(* ===================================================================== *)

Module Json.

(** What [json.loads] / [resp.json()] return: [None], [bool], [int],
    [float], [str], [list], and [dict] with its keys in insertion order. *)
Inductive json : Type :=
  | JNull
  | JBool (b : bool)
  | JInt (z : Z)
  | JFloat (f : float)
  | JStr (s : pystr)
  | JArr (items : list json)
  | JObj (fields : list (pystr * json)).

(** Truth value of a Python object ([if x:], [x or y], [not x]). *)
Definition truthy (v : json) : bool :=
  match v with
  | JNull => false
  | JBool b => b
  | JInt z => negb (z =? 0)%Z
  | JFloat f => negb (PrimFloat.eqb f 0%float)
  | JStr s => nonempty s
  | JArr l => nonempty l
  | JObj l => nonempty l
  end.

(** [x or y] *)
Definition py_or (x y : json) : json := if truthy x then x else y.

(** Look a key up in the fields of a [dict]. *)
Fixpoint lookup_field (k : pystr) (fields : list (pystr * json)) : option json :=
  match fields with
  | [] => None
  | (k', v) :: rest => if decide (k = k') then Some v else lookup_field k rest
  end.

(** [d.get(k, dflt)]: an [AttributeError] when [d] is not a [dict]. *)
Definition get (d : json) (k : pystr) (dflt : json) : result json :=
  match d with
  | JObj fields => Ok (default dflt (lookup_field k fields))
  | _ => Raise AttributeError
  end.

(** [k in d] for a [dict] [d]. *)
Definition has_key (k : pystr) (fields : list (pystr * json)) : bool :=
  match lookup_field k fields with Some _ => true | None => false end.

End Json.

Import Json.

(* ===================================================================== *)
(** ** coze_client.py / dashscope_client.py *)
(* ===================================================================== *)

Module Client.

(** What [requests.post] followed by [resp.raise_for_status()] and
    [resp.json()] can observe: no reply at all, or a reply with its status
    code and its body (decoded, when the body is JSON). *)
Inductive transport : Type :=
  | NoReply
  | Reply (status_code : Z) (body : option json).

(** [resp = requests.post(...); resp.raise_for_status(); data = resp.json()] *)
Definition post_json (t : transport) : result json :=
  match t with
  | NoReply => Raise RequestException
  | Reply status_code body =>
      if (400 <=? status_code)%Z && (status_code <? 600)%Z then Raise HTTPError
      else or_raise JSONDecodeError body
  end.

(** [_extract_first_str]: the string itself; for a [dict] or [list] the
    first truthy result among the values, in order; [None] otherwise. *)
Fixpoint _extract_first_str (obj : json) : option pystr :=
  match obj with
  | JStr s => Some s
  | JObj fields =>
      (fix values (l : list (pystr * json)) : option pystr :=
         match l with
         | [] => None
         | (_, v) :: rest =>
             match _extract_first_str v with
             | Some s => if nonempty s then Some s else values rest
             | None => values rest
             end
         end) fields
  | JArr items =>
      (fix elements (l : list json) : option pystr :=
         match l with
         | [] => None
         | v :: rest =>
             match _extract_first_str v with
             | Some s => if nonempty s then Some s else elements rest
             | None => elements rest
             end
         end) items
  | _ => None
  end.

(** [None] or a [str], as a Python object. *)
Definition of_optional_str (o : option pystr) : json :=
  match o with
  | Some s => JStr s
  | None => JNull
  end.

(** The lookup of the known envelope fields: [output_text] before the
    fallback. [data.get] raises when [data] is no [dict], and
    [choices[0].get] when the first choice is no [dict]. *)
Definition envelope_text (data : json) : result json :=
  output ← get data (ustr "output") JNull;
  match output with
  | JObj fields =>
      match default JNull (lookup_field (ustr "choices") fields) with
      | JArr (first :: _) => get first (ustr "text") JNull
      | _ =>
          if has_key (ustr "text") fields
          then Ok (default JNull (lookup_field (ustr "text") fields))
          else Ok JNull
      end
  | _ => Ok JNull
  end.

(** [output_text] after the fallback [if not output_text: output_text =
    self._extract_first_str(data)]. *)
Definition output_text_of (data : json) : result json :=
  output_text ← envelope_text data;
  if truthy output_text then Ok output_text
  else Ok (of_optional_str (_extract_first_str data)).

(** All the strings below an object, in depth-first order. *)
Fixpoint strings_of (obj : json) : list pystr :=
  match obj with
  | JStr s => [s]
  | JArr items =>
      (fix elements (l : list json) : list pystr :=
         match l with
         | [] => []
         | v :: rest => strings_of v ++ elements rest
         end) items
  | JObj fields =>
      (fix values (l : list (pystr * json)) : list pystr :=
         match l with
         | [] => []
         | (_, v) :: rest => strings_of v ++ values rest
         end) fields
  | _ => []
  end.




(** [output_text.strip()] and the removal of a code fence: an
    [AttributeError] when [output_text] is no [str]. *)
Definition clean_output_text (output_text : json) : result pystr :=
  match output_text with
  | JStr s =>
      let s := strip s in
      if startswith s (ustr "```")
      then Ok (strip (replace_first (ustr "json") [] (strip_chars (ustr "`") s)))
      else Ok s
  | _ => Raise AttributeError
  end.

(** One generated question, as [generate_questions_from_note] builds it. *)
Record question_dict : Type := {
  qd_knowledge_tag : json;
  qd_q_type : json;
  qd_content : json;
  qd_options : json;
  qd_answer : json;
  qd_analysis : json;
  qd_difficulty : json;
}.

(** The [dict] built in the loop body, for an element that is a [dict]. *)
Definition project_question (fields : list (pystr * json)) : question_dict :=
  let get_or (k : pystr) (dflt : json) := default dflt (lookup_field k fields) in
  {| qd_knowledge_tag := get_or (ustr "knowledge_tag") (JStr []);
     qd_q_type := get_or (ustr "q_type") (JStr []);
     qd_content := get_or (ustr "content") (JStr []);
     qd_options := py_or (get_or (ustr "options") (JArr [])) (JArr []);
     qd_answer := get_or (ustr "answer") (JStr []);
     qd_analysis := get_or (ustr "analysis") (JStr []);
     qd_difficulty := get_or (ustr "difficulty") (JStr []) |}.

(** [for q in questions_raw: if not isinstance(q, dict): continue; ...] *)
Fixpoint parse_questions (questions_raw : list json) : list question_dict :=
  match questions_raw with
  | [] => []
  | JObj fields :: rest => project_question fields :: parse_questions rest
  | _ :: rest => parse_questions rest
  end.

(** The fixed comments of [score_answer]. *)
Definition msg_no_api_key : pystr :=
  [0x672a; 0x914d; 0x7f6e] ++ ustr " DashScope API Key"
  ++ [0xff0c; 0x65e0; 0x6cd5; 0x8fdb; 0x884c; 0x8bc4; 0x5206; 0x3002].
Definition msg_no_content : pystr :=
  [0x8bc4; 0x5206; 0x5931; 0x8d25; 0xff0c; 0x6a21; 0x578b; 0x672a; 0x8fd4;
   0x56de; 0x5185; 0x5bb9; 0x3002].
Definition msg_no_comment : pystr :=
  [0x65e0; 0x8be6; 0x7ec6; 0x70b9; 0x8bc4; 0x3002].
Definition msg_failed : pystr :=
  [0x8bc4; 0x5206; 0x5931; 0x8d25; 0xff0c; 0x6682; 0x65f6; 0x6309; 0x9519;
   0x8bef; 0x5904; 0x7406; 0x3002].

(** The normalisation of the score at the end of [score_answer]:
    [if score > 1: score = score / 100.0] and
    [score = max(0.0, min(1.0, score))]. *)
Definition normalize_score (score : float) : float :=
  let score := if PrimFloat.ltb 1%float score
               then PrimFloat.div score 100%float else score in
  py_max 0%float (py_min 1%float score).

Section Remote.

(** Python's [json.loads] ([None]: it raises [JSONDecodeError]), [float] on
    a [str] ([None]: it raises [ValueError]) and [str] on an object that is
    no [str] are taken as they are. *)
Variable json_loads : pystr -> option json.
Variable float_of_str : pystr -> option float.
Variable str_of_object : json -> pystr.

(** [float(x)] *)
Definition py_float (x : json) : result float :=
  match x with
  | JInt z => float_of_int z
  | JFloat f => Ok f
  | JBool b => Ok (if b then 1%float else 0%float)
  | JStr s => or_raise ValueError (float_of_str s)
  | _ => Raise TypeError
  end.

(** [str(x)] *)
Definition py_str (x : json) : pystr :=
  match x with
  | JStr s => s
  | _ => str_of_object x
  end.

(** The body of the [try] of [generate_questions_from_note], from the reply on. *)
Definition generate_body (t : transport) : result (list question_dict) :=
  data ← post_json t;
  output_text ← output_text_of data;
  if negb (truthy output_text) then Ok []
  else
    output_text ← clean_output_text output_text;
    questions_raw ← or_raise JSONDecodeError (json_loads output_text);
    match questions_raw with
    | JArr items => Ok (parse_questions items)
    | _ => Ok []
    end.

(** [generate_questions_from_note]. The prompt built from [note_text],
    [question_types] and [max_questions] is the request; what comes back is
    [t]. *)
Definition generate_questions_from_note (api_key : pystr) (t : transport)
  : result (list question_dict) :=
  if negb (nonempty api_key) then Ok []
  else try_except (generate_body t) (fun _ => Ok []).

(** The end of the [try] of [score_answer], from the decoded payload [js] on. *)
Definition score_payload (js : json) : result (float * pystr) :=
  raw ← get js (ustr "score") (JInt 0);
  score ← py_float raw;
  c ← get js (ustr "comment") (JStr []);
  let comment := if nonempty (py_str c) then py_str c else msg_no_comment in
  Ok (normalize_score score, comment).

(** The body of the [try] of [score_answer], from the reply on. *)
Definition score_body (t : transport) : result (float * pystr) :=
  data ← post_json t;
  output_text ← output_text_of data;
  if negb (truthy output_text) then Ok (0%float, msg_no_content)
  else
    output_text ← clean_output_text output_text;
    js ← or_raise JSONDecodeError (json_loads output_text);
    score_payload js.

(** [score_answer] *)
Definition score_answer (api_key : pystr) (t : transport) : result (float * pystr) :=
  if negb (nonempty api_key) then Ok (0%float, msg_no_api_key)
  else try_except (score_body t) (fun _ => Ok (0%float, msg_failed)).

End Remote.

End Client.

Import Client.

(* ===================================================================== *)
(** ** database.py and models.py *)
(* ===================================================================== *)

Module Models.

(** A nullable TEXT column, and a TIMESTAMP column (filled by
    [DEFAULT CURRENT_TIMESTAMP], text that compares as text). *)
Abbreviation sql_text := (option pystr).
Abbreviation timestamp := pystr.

(** The three tables of [init_db]. *)
Record note_row : Type := {
  n_id : Z;
  n_title : pystr;
  n_path : pystr;
  n_created_at : timestamp;
}.

Record question_row : Type := {
  q_id : Z;
  q_note_id : Z;
  q_knowledge_tag : sql_text;
  q_q_type : sql_text;
  q_content : sql_text;
  q_options : sql_text;
  q_answer : sql_text;
  q_analysis : sql_text;
  q_difficulty : sql_text;
  q_created_at : timestamp;
}.

(** [is_correct] holds 1 or 0 ([insert_answer] writes nothing else). *)
Record answer_row : Type := {
  a_id : Z;
  a_question_id : Z;
  a_user_answer : sql_text;
  a_is_correct : bool;
  a_created_at : timestamp;
}.

(** The database: the rows of each table in rowid order, and for each table
    the largest id handed out so far (AUTOINCREMENT never reuses one). *)
Record db : Type := {
  notes : list note_row;
  questions : list question_row;
  user_answers : list answer_row;
  seq_notes : Z;
  seq_questions : Z;
  seq_user_answers : Z;
}.

Definition empty_db : db :=
  {| notes := []; questions := []; user_answers := [];
     seq_notes := 0; seq_questions := 0; seq_user_answers := 0 |}.

(** One element of the [questions] argument of [insert_question_batch], in
    the format [generate_questions_from_note] documents: text fields and a
    JSON value for the options. A key may be missing ([None]). *)
Record draft : Type := {
  d_knowledge_tag : option pystr;
  d_q_type : option pystr;
  d_content : option pystr;
  d_options : option json;
  d_answer : option pystr;
  d_analysis : option pystr;
  d_difficulty : option pystr;
}.

(** The [dict] that [_row_to_question_dict] returns. *)
Record question : Type := {
  id : Z;
  note_id : Z;
  knowledge_tag : sql_text;
  q_type : sql_text;
  content : sql_text;
  options : json;
  answer : sql_text;
  analysis : sql_text;
  difficulty : sql_text;
}.

(** [insert_note]: the new database and [cur.lastrowid]. *)
Definition insert_note (now : timestamp) (d : db) (title path : pystr) : db * Z :=
  let rowid := (seq_notes d + 1)%Z in
  let row := {| n_id := rowid; n_title := title; n_path := path;
                n_created_at := now |} in
  ({| notes := notes d ++ [row]; questions := questions d;
      user_answers := user_answers d; seq_notes := rowid;
      seq_questions := seq_questions d;
      seq_user_answers := seq_user_answers d |}, rowid).

(** [insert_answer] *)
Definition insert_answer (now : timestamp) (d : db) (question_id : Z)
  (user_answer : sql_text) (is_correct : bool) : db :=
  let rowid := (seq_user_answers d + 1)%Z in
  let row := {| a_id := rowid; a_question_id := question_id;
                a_user_answer := user_answer; a_is_correct := is_correct;
                a_created_at := now |} in
  {| notes := notes d; questions := questions d;
     user_answers := user_answers d ++ [row]; seq_notes := seq_notes d;
     seq_questions := seq_questions d; seq_user_answers := rowid |}.

(** Truth value of a column read back: neither NULL nor empty. *)
Definition text_truthy (t : sql_text) : bool :=
  match t with
  | Some s => nonempty s
  | None => false
  end.

(** [{row['content'] for row in cur.fetchall() if row['content']}] *)
Definition existing_contents (d : db) : gset pystr :=
  list_to_set (omap (fun r => if text_truthy (q_content r)
                              then q_content r else None) (questions d)).




Section Codec.

(** [json.dumps(., ensure_ascii=False)] and [json.loads] ([None]: it
    raises) of Python's library are taken as they are. *)
Variable json_dumps : json -> pystr.
Variable json_loads : pystr -> option json.

(** The row one [INSERT INTO questions] adds. *)
Definition question_row_of (rowid note_id : Z) (now : timestamp) (q : draft)
  (content : pystr) : question_row :=
  {| q_id := rowid;
     q_note_id := note_id;
     q_knowledge_tag := Some (default [] (d_knowledge_tag q));
     q_q_type := Some (default [] (d_q_type q));
     q_content := Some content;
     q_options := Some (json_dumps (default (JArr []) (d_options q)));
     q_answer := Some (default [] (d_answer q));
     q_analysis := Some (default [] (d_analysis q));
     q_difficulty := Some (default [] (d_difficulty q));
     q_created_at := now |}.

Definition add_question (clock : Z -> timestamp) (d : db) (note_id : Z)
  (q : draft) (content : pystr) : db :=
  let rowid := (seq_questions d + 1)%Z in
  {| notes := notes d;
     questions := questions d ++ [question_row_of rowid note_id (clock rowid) q content];
     user_answers := user_answers d; seq_notes := seq_notes d;
     seq_questions := rowid; seq_user_answers := seq_user_answers d |}.

(** The [for q in questions] loop of [insert_question_batch];
    [clock rowid] is CURRENT_TIMESTAMP when the row [rowid] is inserted. *)
Fixpoint insert_loop (clock : Z -> timestamp) (note_id : Z)
  (questions : list draft) (d : db) (existing_contents : gset pystr) : db :=
  match questions with
  | [] => d
  | q :: rest =>
      let content := default [] (d_content q) in
      if negb (nonempty content) then
        insert_loop clock note_id rest d existing_contents
      else if bool_decide (content ∈ existing_contents) then
        insert_loop clock note_id rest d existing_contents
      else
        insert_loop clock note_id rest (add_question clock d note_id q content)
          ({[ content ]} ∪ existing_contents)
  end.

(** [insert_question_batch] *)
Definition insert_question_batch (clock : Z -> timestamp) (d : db) (note_id : Z)
  (questions : list draft) : db :=
  insert_loop clock note_id questions d (existing_contents d).

(** One call of [insert_question_batch], and a sequence of calls. *)
Record batch : Type := {
  b_clock : Z -> timestamp;
  b_note_id : Z;
  b_questions : list draft;
}.

Definition insert_batches (d : db) (batches : list batch) : db :=
  foldl (fun d b => insert_question_batch (b_clock b) d (b_note_id b) (b_questions b))
    d batches.

(** [_row_to_question_dict]: [json.loads(row['options'] or '[]')] raises
    when the stored text is no JSON. *)
Definition _row_to_question_dict (row : question_row) : result question :=
  let text := if text_truthy (q_options row)
              then default [] (q_options row) else ustr "[]" in
  opts ← or_raise JSONDecodeError (json_loads text);
  Ok {| id := q_id row;
        note_id := q_note_id row;
        knowledge_tag := q_knowledge_tag row;
        q_type := q_q_type row;
        content := q_content row;
        options := opts;
        answer := q_answer row;
        analysis := q_analysis row;
        difficulty := q_difficulty row |}.

(** The question read back from the row of a draft. *)
Definition stored_question (rowid note_id : Z) (q : draft) (c : pystr) : question :=
  {| id := rowid; note_id := note_id;
     knowledge_tag := Some (default [] (d_knowledge_tag q));
     q_type := Some (default [] (d_q_type q));
     content := Some c;
     options := default (JArr []) (d_options q);
     answer := Some (default [] (d_answer q));
     analysis := Some (default [] (d_analysis q));
     difficulty := Some (default [] (d_difficulty q)) |}.

(** [get_question_by_id]: [None] when no row has the id. *)
Definition get_question_by_id (d : db) (question_id : Z) : result (option question) :=
  match filter (fun r => q_id r = question_id) (questions d) with
  | [] => Ok None
  | row :: _ => Some <$> _row_to_question_dict row
  end.

(** SQL's [LIMIT n]: SQLite puts no bound on the rows when [n] is negative. *)
Definition sql_limit {A} (n : Z) (rows : list A) : list A :=
  if (n <? 0)%Z then rows else take (Z.to_nat n) rows.

(** [SELECT id FROM notes ORDER BY created_at DESC LIMIT 1]: a row whose
    [created_at] no other row exceeds (SQL leaves the choice among equal
    timestamps open). *)
Definition is_latest_note (d : db) (row : note_row) : Prop :=
  row ∈ notes d ∧
  ∀ other, other ∈ notes d → str_le (n_created_at other) (n_created_at row) = true.

(** The computation of [resolved_note_id]. *)
Inductive resolves_to (d : db) (note_id : option Z) (scope : option pystr)
  : option Z -> Prop :=
  | resolve_explicit n :
      note_id = Some n -> resolves_to d note_id scope (Some n)
  | resolve_latest row :
      note_id = None -> scope = Some (ustr "latest") ->
      is_latest_note d row -> resolves_to d note_id scope (Some (n_id row))
  | resolve_latest_none :
      note_id = None -> scope = Some (ustr "latest") ->
      notes d = [] -> resolves_to d note_id scope None
  | resolve_unscoped :
      note_id = None -> scope ≠ Some (ustr "latest") ->
      resolves_to d note_id scope None.

(** [q_type in ('single_choice', 'short_answer')] *)
Definition recognized_q_type (q_type : option pystr) : bool :=
  bool_decide (q_type = Some (ustr "single_choice")
               ∨ q_type = Some (ustr "short_answer")).

(** The WHERE clause built by [get_questions_by_knowledge] (a comparison
    with a NULL column selects nothing). *)
Definition matches (resolved_note_id : option Z) (tags : list pystr)
  (q_type : option pystr) (row : question_row) : bool :=
  match resolved_note_id with
  | Some n => bool_decide (q_note_id row = n)
  | None => true
  end
  && (if nonempty tags
      then match q_knowledge_tag row with
           | Some t => bool_decide (t ∈ tags)
           | None => false
           end
      else true)
  && (if recognized_q_type q_type
      then bool_decide (q_q_type row = q_type)
      else true).

(** [get_questions_by_knowledge]: [ORDER BY RANDOM()] yields the selected
    rows in some order, [LIMIT ?] cuts it, and each row is converted. *)
Definition get_questions_by_knowledge (d : db) (tags : list pystr) (limit : Z)
  (note_id : option Z) (scope : option pystr) (q_type : option pystr)
  (out : result (list question)) : Prop :=
  ∃ resolved_note_id shuffled,
    resolves_to d note_id scope resolved_note_id ∧
    shuffled ≡ₚ List.filter (matches resolved_note_id tags q_type) (questions d) ∧
    out = mapM _row_to_question_dict (sql_limit limit shuffled).

(** Timestamps of the wrong answers given to a question, and the latest
    of them ([MAX(a.created_at)] over the group of the question). *)
Definition wrong_times (d : db) (row : question_row) : list timestamp :=
  a_created_at <$>
    filter (fun a => a_question_id a = q_id row ∧ a_is_correct a = false)
      (user_answers d).

Definition str_max (a b : pystr) : pystr := if str_lt a b then b else a.

Definition last_wrong (d : db) (row : question_row) : timestamp :=
  foldr str_max [] (wrong_times d row).

(** [get_wrong_questions]: the questions joined with a wrong answer, one
    row per question, latest wrong answer first, cut by [LIMIT ?]. *)
Definition get_wrong_questions (d : db) (limit : Z)
  (out : result (list question)) : Prop :=
  ∃ rows,
    rows ≡ₚ List.filter (fun row => nonempty (wrong_times d row)) (questions d) ∧
    Sorted (fun r1 r2 => str_le (last_wrong d r2) (last_wrong d r1) = true) rows ∧
    out = mapM _row_to_question_dict (sql_limit limit rows).

End Codec.

(** [delete_note], statement by statement. First the answers to the
    questions of the note ... *)
Definition delete_answers_of_note (d : db) (note_id : Z) : db :=
  let q_ids := q_id <$> filter (fun r => q_note_id r = note_id) (questions d) in
  {| notes := notes d;
     questions := questions d;
     user_answers :=
       if nonempty q_ids
       then filter (fun a => a_question_id a ∉ q_ids) (user_answers d)
       else user_answers d;
     seq_notes := seq_notes d;
     seq_questions := seq_questions d;
     seq_user_answers := seq_user_answers d |}.

(** ... then [DELETE FROM questions WHERE note_id = ?] ... *)
Definition delete_questions_of_note (d : db) (note_id : Z) : db :=
  {| notes := notes d;
     questions := filter (fun r => q_note_id r ≠ note_id) (questions d);
     user_answers := user_answers d;
     seq_notes := seq_notes d;
     seq_questions := seq_questions d;
     seq_user_answers := seq_user_answers d |}.

(** ... then [DELETE FROM notes WHERE id = ?]. *)
Definition delete_note_row (d : db) (note_id : Z) : db :=
  {| notes := filter (fun n => n_id n ≠ note_id) (notes d);
     questions := questions d;
     user_answers := user_answers d;
     seq_notes := seq_notes d;
     seq_questions := seq_questions d;
     seq_user_answers := seq_user_answers d |}.

Definition delete_note (d : db) (note_id : Z) : db :=
  delete_note_row
    (delete_questions_of_note (delete_answers_of_note d note_id) note_id)
    note_id.

Section Stats.

(** SQLite's [strftime('%Y-%W', .)] on a stored timestamp is taken as it is. *)
Variable strftime_YW : timestamp -> pystr.

(** One row of the SELECT of [get_stats_by_week]: [week], [COUNT( * )],
    [SUM(is_correct)]. *)
Record week_group : Type := {
  g_week : pystr;
  g_total : Z;
  g_correct : Z;
}.

(** Add one answer to its group, keeping the groups in ascending order of
    [week] ([GROUP BY week ORDER BY week]). *)
Fixpoint group_insert (w : pystr) (is_correct : bool) (groups : list week_group)
  : list week_group :=
  match groups with
  | [] => [ {| g_week := w; g_total := 1; g_correct := Z.b2z is_correct |} ]
  | g :: rest =>
      match str_compare w (g_week g) with
      | Lt => {| g_week := w; g_total := 1; g_correct := Z.b2z is_correct |}
              :: g :: rest
      | Eq => {| g_week := g_week g; g_total := g_total g + 1;
                 g_correct := g_correct g + Z.b2z is_correct |} :: rest
      | Gt => g :: group_insert w is_correct rest
      end
  end.

Definition select_by_week (answers : list answer_row) : list week_group :=
  foldr (fun a groups =>
           group_insert (strftime_YW (a_created_at a)) (a_is_correct a) groups)
    [] answers.

(** The answers of the week [w]; the group of [w] among the rows of the
    SELECT; rows in strictly ascending order of [week]. *)
Definition answers_in_week (w : pystr) (answers : list answer_row) : list answer_row :=
  filter (fun a => strftime_YW (a_created_at a) = w) answers.

Definition group_of (w : pystr) (groups : list week_group) : option week_group :=
  head (filter (fun g => g_week g = w) groups).

Definition weeks_ascending (groups : list week_group) : Prop :=
  StronglySorted (fun g1 g2 => str_lt (g_week g1) (g_week g2) = true) groups.

(** One element of [by_week]. *)
Record week_stats : Type := {
  week : pystr;
  total : Z;
  correct : Z;
  accuracy : pynum;
}.

(** [(correct / total) if total else 0] *)
Definition ratio_or_zero (correct total : Z) : result pynum :=
  if (total =? 0)%Z then Ok (PyInt 0)
  else PyFloat <$> int_truediv correct total.

(** [x or 0] on an [int]. *)
Definition or_zero (x : Z) : Z := if (x =? 0)%Z then 0%Z else x.

(** [get_stats_by_week] *)
Definition get_stats_by_week (d : db) : result (list week_stats) :=
  mapM (fun r =>
          let total := or_zero (g_total r) in
          let correct := or_zero (g_correct r) in
          accuracy ← ratio_or_zero correct total;
          Ok {| week := g_week r; total := total; correct := correct;
                accuracy := accuracy |})
    (select_by_week (user_answers d)).

(** The [dict] that [get_stats_overview] returns. *)
Record stats_overview : Type := {
  total_answers : Z;
  correct_answers : Z;
  overall_accuracy : pynum;
  by_week : list week_stats;
}.

(** [get_stats_overview] *)
Definition get_stats_overview (d : db) : result stats_overview :=
  let total_answers := Z.of_nat (length (user_answers d)) in
  let correct_answers :=
    Z.of_nat (length (filter (fun a => a_is_correct a = true) (user_answers d))) in
  accuracy ← ratio_or_zero correct_answers total_answers;
  by_week ← get_stats_by_week d;
  Ok {| total_answers := total_answers; correct_answers := correct_answers;
        overall_accuracy := accuracy; by_week := by_week |}.

End Stats.

End Models.

Import Models.

(* ===================================================================== *)
(** ** Sample values *)
(* ===================================================================== *)

Module Samples.

(** The options of a two-option question and their JSON text
    (0x22 is the double quote). *)
Definition options_yes_no : json :=
  JArr [JStr (ustr "A. yes"); JStr (ustr "B. no")].

Definition options_yes_no_text : pystr :=
  ustr "[" ++ [0x22] ++ ustr "A. yes" ++ [0x22] ++ ustr ", "
  ++ [0x22] ++ ustr "B. no" ++ [0x22] ++ ustr "]".

(** An encoder and a decoder that know a few values: what [json.dumps]
    and [json.loads] do on them. *)
Definition sample_dumps (v : json) : pystr :=
  match v with
  | JArr [] => ustr "[]"
  | JArr [JStr a; JStr b] =>
      if decide (a = ustr "A. yes" ∧ b = ustr "B. no") then options_yes_no_text
      else ustr "null"
  | _ => ustr "null"
  end.

Definition sample_loads (text : pystr) : option json :=
  if decide (text = ustr "[{}]") then Some (JArr [JObj []])
  else if decide (text = ustr "[]") then Some (JArr [])
  else if decide (text = options_yes_no_text) then Some options_yes_no
  else None.



(** The tag of the specification's example (four CJK characters). *)
Definition tag_backprop : pystr := [0x53cd; 0x5411; 0x4f20; 0x64ad].

Definition draft_choice : draft :=
  {| d_knowledge_tag := Some tag_backprop;
     d_q_type := Some (ustr "single_choice");
     d_content := Some (ustr "Q1");
     d_options := Some options_yes_no;
     d_answer := Some (ustr "A");
     d_analysis := Some (ustr "because");
     d_difficulty := Some (ustr "easy") |}.

Definition draft_short : draft :=
  {| d_knowledge_tag := Some (ustr "attention");
     d_q_type := Some (ustr "short_answer");
     d_content := Some (ustr "Q2");
     d_options := None;
     d_answer := Some (ustr "a weighted sum");
     d_analysis := Some [];
     d_difficulty := Some (ustr "medium") |}.

Definition draft_blank : draft :=
  {| d_knowledge_tag := Some tag_backprop;
     d_q_type := Some (ustr "short_answer");
     d_content := Some [];
     d_options := None;
     d_answer := None;
     d_analysis := None;
     d_difficulty := None |}.

Definition sample_clock (rowid : Z) : timestamp := ustr "2025-01-13 09:00:05".

(** Two uploads: the first repeats a draft and has a blank one, the second
    repeats a draft of the first. *)
Definition sample_batches : list batch :=
  [ {| b_clock := sample_clock; b_note_id := 1;
       b_questions := [draft_choice; draft_blank; draft_choice] |};
    {| b_clock := sample_clock; b_note_id := 2;
       b_questions := [draft_short; draft_choice] |} ].

Definition db_notes : db :=
  (insert_note (ustr "2025-01-13 09:00:00")
     (insert_note (ustr "2025-01-06 09:00:00") empty_db
        (ustr "note 1") (ustr "uploads/n1.txt")).1
     (ustr "note 2") (ustr "uploads/n2.txt")).1.

Definition db_questions : db := insert_batches sample_dumps db_notes sample_batches.

(** Three answers, two of them correct. *)
Definition answer_3 : answer_row :=
  {| a_id := 3; a_question_id := 2; a_user_answer := Some (ustr "a sum");
     a_is_correct := true; a_created_at := ustr "2025-02-03 08:00:00" |}.

Definition sample_db : db :=
  insert_answer (ustr "2025-02-03 08:00:00")
    (insert_answer (ustr "2025-01-14 10:05:00")
       (insert_answer (ustr "2025-01-14 10:00:00") db_questions
          1 (Some (ustr "B")) false)
       1 (Some (ustr "A. yes")) true)
    2 (Some (ustr "a sum")) true.

Definition question_1 : question := stored_question 1 1 draft_choice (ustr "Q1").
Definition question_2 : question := stored_question 2 2 draft_short (ustr "Q2").

(** A stand-in for the week key: the year and month of the timestamp. *)
Definition sample_week (t : timestamp) : pystr := take 7 t.

End Samples.

Import Samples.

(* ===================================================================== *)
(** ** app.py: the routes *)
(* ===================================================================== *)

Module Routes.




(** [request.args.get(key, '').strip() or None], for [scope] and [q_type]. *)
Definition strip_or_none (raw : pystr) : option pystr :=
  if nonempty (strip raw) then Some (strip raw) else None.

(** [round(x)] of a [float]: the nearest [int], ties to the even one;
    [ValueError] for a NaN and [OverflowError] for an infinity. *)
Definition py_round (x : float) : result Z :=
  match Prim2SF x with
  | S754_zero _ => Ok 0%Z
  | S754_infinity _ => Raise OverflowError
  | S754_nan => Raise ValueError
  | S754_finite sign m e =>
      let magnitude :=
        if (0 <=? e)%Z then (Zpos m * 2 ^ e)%Z
        else
          let d := (2 ^ (- e))%Z in
          let q := (Zpos m / d)%Z in
          let r := (Zpos m mod d)%Z in
          if (2 * r <? d)%Z then q
          else if (d <? 2 * r)%Z then (q + 1)%Z
          else if Z.even q then q else (q + 1)%Z in
      Ok (if sign then (- magnitude)%Z else magnitude)
  end.

(** The JSON body of [/api/answers/submit], with the fields the route
    reads: an integer [question_id] and a text [user_answer], each possibly
    missing or null. *)
Record submission : Type := {
  question_id : option Z;
  user_answer : option pystr;
}.

(** What the route answers: an error with its status code, or the
    [dict] of a graded submission (status 200). *)
Inductive response : Type :=
  | ErrorResponse (status_code : Z) (error : pystr)
  | Graded (is_correct : bool) (score : Z) (comment : pystr)
      (standard_answer analysis q_type : sql_text).

(** [str(x)] for a column read back: the text, or [None] spelled out. *)
Definition str_of_text (t : sql_text) : pystr :=
  match t with
  | Some s => s
  | None => ustr "None"
  end.

Section Submit.

Variable json_loads : pystr -> option json.
Variable float_of_str : pystr -> option float.
Variable str_of_object : json -> pystr.
Variable unicode_upper : N -> pystr.

(** The grading of [api_submit_answer]: [(score_0_1, comment, is_correct)]. *)
Definition grade (api_key : pystr) (t : transport) (question : Models.question)
  (user_answer : option pystr) : result (float * pystr * bool) :=
  if decide (Models.q_type question = Some (ustr "short_answer")) then
    '(score_0_1, comment) ←
      score_answer json_loads float_of_str str_of_object api_key t;
    Ok (score_0_1, comment, PrimFloat.leb 0.6%float score_0_1)
  else
    Ok (0%float, [],
        grade_single_choice unicode_upper (default [] user_answer)
          (str_of_text (Models.answer question))).

(** [api_submit_answer]: the database the request leaves, and the response
    or the exception that ends the request. *)
Definition api_submit_answer (api_key : pystr) (t : transport) (now : timestamp)
  (d : db) (data : submission) : db * result response :=
  match question_id data with
  | None => (d, Ok (ErrorResponse 400 (ustr "question_id required")))
  | Some qid =>
      match get_question_by_id json_loads d qid with
      | Raise e => (d, Raise e)
      | Ok None => (d, Ok (ErrorResponse 404 (ustr "question not found")))
      | Ok (Some question) =>
          match grade api_key t question (user_answer data) with
          | Raise e => (d, Raise e)
          | Ok (score_0_1, comment, is_correct) =>
              (insert_answer now d qid (user_answer data) is_correct,
               score ← py_round (PrimFloat.mul score_0_1 100%float);
               Ok (Graded is_correct score comment (Models.answer question)
                     (Models.analysis question) (Models.q_type question)))
          end
      end
  end.

(** [api_delete_note]: always [{'status': 'ok'}]. *)
Definition api_delete_note (d : db) (note_id : Z) : db * pystr :=
  (delete_note d note_id, ustr "ok").

End Submit.

End Routes.

Import Routes.

(* ===================================================================== *)
(** ** database.py: the connection of a request *)
(* ===================================================================== *)

Module Database.

(** The application context of a request: [g.db] (a connection handle, when
    set), the connections that are open, and the handle the next
    [sqlite3.connect] returns. *)
Record app_context : Type := {
  g_db : option Z;
  open_connections : list Z;
  next_handle : Z;
}.

Definition fresh_context (next : Z) : app_context :=
  {| g_db := None; open_connections := []; next_handle := next |}.

(** [get_db] *)
Definition get_db (g : app_context) : app_context * Z :=
  match g_db g with
  | Some conn => (g, conn)
  | None =>
      let conn := next_handle g in
      ({| g_db := Some conn;
          open_connections := conn :: open_connections g;
          next_handle := (conn + 1)%Z |}, conn)
  end.

(** [close_db] *)
Definition close_db (g : app_context) : app_context :=
  match g_db g with
  | Some conn =>
      {| g_db := None;
         open_connections := filter (fun c => c ≠ conn) (open_connections g);
         next_handle := next_handle g |}
  | None => g
  end.

(** The calls a request makes, in order. *)
Inductive call : Type := GetDb | CloseDb.

Definition run_call (g : app_context) (c : call) : app_context :=
  match c with
  | GetDb => (get_db g).1
  | CloseDb => close_db g
  end.

Definition run_calls (g : app_context) (calls : list call) : app_context :=
  foldl run_call g calls.

End Database.

Import Database.

(* ===================================================================== *)
(** ** Invariants of the database *)
(* ===================================================================== *)

Module Invariants.

(** The ids of a table: no id twice, none beyond the last one handed out. *)
Definition ids_ok (ids : list Z) (seq : Z) : Prop :=
  NoDup ids ∧ ∀ i, i ∈ ids -> (i ≤ seq)%Z.

Definition well_formed (d : db) : Prop :=
  ids_ok (n_id <$> notes d) (seq_notes d)
  ∧ ids_ok (q_id <$> questions d) (seq_questions d)
  ∧ ids_ok (a_id <$> user_answers d) (seq_user_answers d).

(** Every answer references a stored question, every question a stored note. *)
Definition answers_refer (d : db) : Prop :=
  ∀ a, a ∈ user_answers d -> ∃ r, r ∈ questions d ∧ q_id r = a_question_id a.

Definition questions_refer (d : db) : Prop :=
  ∀ r, r ∈ questions d -> ∃ m, m ∈ notes d ∧ n_id m = q_note_id r.


End Invariants.

Import Invariants.

(* ===================================================================== *)
(** ** Sample values, further *)
(* ===================================================================== *)

Module MoreSamples.

(** The first stored question of the sample database. *)
Definition row_1 : question_row :=
  question_row_of sample_dumps 1 1 (sample_clock 1) draft_choice (ustr "Q1").

(** A draft that the sample database does not hold. *)
Definition draft_new : draft :=
  {| d_knowledge_tag := Some (ustr "optimizers");
     d_q_type := Some (ustr "short_answer");
     d_content := Some (ustr "Q3");
     d_options := None;
     d_answer := Some (ustr "momentum");
     d_analysis := None;
     d_difficulty := Some (ustr "hard") |}.

(** Submissions: for the short-answer question 2, for the single-choice
    question 1, and for a question that does not exist. *)
Definition submission_short : submission :=
  {| question_id := Some 2%Z; user_answer := Some (ustr "a sum of values") |}.

Definition submission_choice : submission :=
  {| question_id := Some 1%Z; user_answer := Some (ustr "a. yes") |}.

Definition submission_unknown : submission :=
  {| question_id := Some 9%Z; user_answer := None |}.

End MoreSamples.

Import MoreSamples.

(* ===================================================================== *)
(** * Properties *)
(* ===================================================================== *)

(** ** Comparison of floats *)

Lemma float_ltb_leb (x y : float) :
  PrimFloat.ltb x y = true -> PrimFloat.leb x y = true.
Proof.
  rewrite ltb_spec, leb_spec. unfold SFltb, SFleb.
  destruct (SFcompare (Prim2SF x) (Prim2SF y)) as [[]|]; auto.
Qed.

Lemma py_min_one_le (x : float) : PrimFloat.leb (py_min 1%float x) 1%float = true.
Proof.
  unfold py_min. destruct (PrimFloat.ltb x 1%float) eqn:E.
  - by apply float_ltb_leb.
  - reflexivity.
Qed.

Lemma py_max_zero_in_unit (x : float) :
  PrimFloat.leb x 1%float = true -> in_unit_interval (py_max 0%float x).
Proof.
  intros Hx. unfold py_max, in_unit_interval.
  destruct (PrimFloat.ltb 0%float x) eqn:E.
  - split; [by apply float_ltb_leb | done].
  - split; reflexivity.
Qed.

Lemma normalize_score_in_unit (score : float) :
  in_unit_interval (normalize_score score).
Proof. unfold normalize_score. apply py_max_zero_in_unit, py_min_one_le. Qed.

Lemma msg_no_comment_nonempty : nonempty msg_no_comment = true.
Proof. reflexivity. Qed.

Section ScoreFacts.

Variable json_loads : pystr -> option json.
Variable float_of_str : pystr -> option float.
Variable str_of_object : json -> pystr.

Lemma score_answer_in_unit (api_key : pystr) (t : transport) :
  ∃ s c, score_answer json_loads float_of_str str_of_object api_key t = Ok (s, c)
         ∧ in_unit_interval s.
Proof.
  unfold score_answer. destruct (negb (nonempty api_key)).
  { eexists _, _. split; [reflexivity|]. split; reflexivity. }
  destruct (score_body json_loads float_of_str str_of_object t) as [[s c]|e] eqn:E;
    simpl.
  2: { eexists _, _. split; [reflexivity|]. split; reflexivity. }
  exists s, c. split; [done|].
  unfold score_body in E.
  destruct (post_json t) as [data|]; simpl in E; [|done].
  destruct (output_text_of data) as [txt|]; simpl in E; [|done].
  destruct (negb (truthy txt)).
  { inversion E; subst. split; reflexivity. }
  destruct (clean_output_text txt) as [txt'|]; simpl in E; [|done].
  destruct (json_loads txt') as [js|]; simpl in E; [|done].
  unfold score_payload in E.
  destruct (get js (ustr "score") (JInt 0)) as [raw|]; simpl in E; [|done].
  destruct (py_float float_of_str raw) as [x|]; simpl in E; [|done].
  destruct (get js (ustr "comment") (JStr [])) as [cv|]; simpl in E; [|done].
  inversion E; subst. apply normalize_score_in_unit.
Qed.


End ScoreFacts.




(** ** Strings: stripping *)

Lemma lstrip_with_split (p : N -> bool) (s : pystr) :
  ∃ k, s = k ++ lstrip_with p s ∧ Forall (fun c => p c = true) k.
Proof.
  induction s as [|c r IH]; simpl.
  - by exists [].
  - destruct (p c) eqn:E.
    + destruct IH as (k & Hk & Hall). exists (c :: k). split.
      * simpl. by f_equal.
      * by constructor.
    + by exists [].
Qed.

Lemma lstrip_with_head (p : N -> bool) (s : pystr) (c : N) (r : pystr) :
  lstrip_with p s = c :: r -> p c = false.
Proof.
  induction s as [|a s IH]; simpl; [done|].
  destruct (p a) eqn:E; [done|]. intros [= -> _]. done.
Qed.

Lemma lstrip_with_fix (p : N -> bool) (s : pystr) :
  (∀ c r, s = c :: r -> p c = false) -> lstrip_with p s = s.
Proof.
  destruct s as [|c r]; simpl; [done|].
  intros H. by rewrite (H c r eq_refl).
Qed.

Lemma rstrip_with_split (p : N -> bool) (s : pystr) :
  ∃ k, s = rstrip_with p s ++ k ∧ Forall (fun c => p c = true) k.
Proof.
  unfold rstrip_with.
  destruct (lstrip_with_split p (reverse s)) as (k & Hk & Hall).
  exists (reverse k). split.
  - rewrite <- reverse_app, <- Hk. by rewrite reverse_involutive.
  - by apply Forall_reverse.
Qed.

Lemma rstrip_with_last (p : N -> bool) (s r : pystr) (c : N) :
  rstrip_with p s = r ++ [c] -> p c = false.
Proof.
  unfold rstrip_with. intros H.
  apply (f_equal reverse) in H. rewrite reverse_involutive, reverse_app in H.
  simpl in H. by apply lstrip_with_head in H.
Qed.

Lemma rstrip_with_fix (p : N -> bool) (s : pystr) :
  (∀ r c, s = r ++ [c] -> p c = false) -> rstrip_with p s = s.
Proof.
  intros H. unfold rstrip_with. rewrite lstrip_with_fix.
  - apply reverse_involutive.
  - intros c r Hr. apply (H (reverse r) c).
    apply (f_equal reverse) in Hr. rewrite reverse_involutive in Hr.
    by rewrite Hr, reverse_cons.
Qed.

Lemma rstrip_with_keeps_head (p : N -> bool) (c : N) (r : pystr) :
  p c = false -> ∃ r', rstrip_with p (c :: r) = c :: r'.
Proof.
  intros Hc. destruct (rstrip_with_split p (c :: r)) as (k & Hk & Hall).
  destruct (rstrip_with p (c :: r)) as [|c' r'] eqn:E.
  - simpl in Hk. subst k. apply Forall_cons in Hall as [Hp _]. congruence.
  - simpl in Hk. injection Hk as -> _. by exists r'.
Qed.

Lemma rstrip_with_idem (p : N -> bool) (s : pystr) :
  rstrip_with p (rstrip_with p s) = rstrip_with p s.
Proof.
  apply rstrip_with_fix. intros r c H. by apply rstrip_with_last in H.
Qed.

Lemma strip_idem (s : pystr) : strip (strip s) = strip s.
Proof.
  unfold strip.
  assert (lstrip_with isspace (rstrip_with isspace (lstrip_with isspace s))
          = rstrip_with isspace (lstrip_with isspace s)) as ->.
  { apply lstrip_with_fix. intros c r H.
    destruct (lstrip_with isspace s) as [|c0 r0] eqn:E.
    - discriminate H.
    - pose proof (lstrip_with_head _ _ _ _ E) as Hc0.
      destruct (rstrip_with_keeps_head isspace c0 r0 Hc0) as (r' & Hr').
      rewrite Hr' in H. by injection H as <- _. }
  apply rstrip_with_idem.
Qed.


(** ** Single-choice grading *)

Section GradingFacts.

Variable unicode_upper : N -> pystr.

Lemma upper_take_1 (c : N) (r : pystr) :
  upper unicode_upper (take 1 (c :: r)) = upper_char unicode_upper c.
Proof. unfold upper. simpl. apply app_nil_r. Qed.

Lemma str_le_A_Z_single (u : N) :
  str_le (ustr "A") [u] && str_le [u] (ustr "Z") = is_letter_AZ [u].
Proof.
  unfold str_le, is_letter_AZ, N.leb. cbn [ustr fmap list_fmap list_ascii_of_string str_compare].
  change (N_of_ascii "A") with 0x41. change (N_of_ascii "Z") with 0x5A.
  destruct (0x41 ?= u), (u ?= 0x5A); reflexivity.
Qed.

(** On every string whose first character after trimming has a
    one-character upper-case form (every ASCII string, for one), the code
    computes the normalisation the specification describes. *)
Lemma normalize_choice_single_upper (s : pystr) :
  (∀ c r, strip s = c :: r -> length (upper_char unicode_upper c) = 1%nat) ->
  normalize_choice unicode_upper s = normalize_spec unicode_upper s.
Proof.
  intros H. unfold normalize_choice, normalize_spec.
  destruct (strip s) as [|c r] eqn:E; [done|].
  specialize (H c r eq_refl).
  change (negb (nonempty (c :: r))) with false. cbv iota.
  rewrite upper_take_1.
  destruct (upper_char unicode_upper c) as [|u [|]] eqn:Eu; try discriminate H.
  cbv zeta. by rewrite str_le_A_Z_single.
Qed.

Lemma upper_char_ascii (c : N) :
  c < 0x80 -> upper_char unicode_upper c = [ascii_upper c].
Proof. intros H. unfold upper_char. by apply N.ltb_lt in H as ->. Qed.

Lemma normalize_choice_ascii (s : pystr) :
  Forall (fun c => c < 0x80) s ->
  normalize_choice unicode_upper s = normalize_spec unicode_upper s.
Proof.
  intros Hs. apply normalize_choice_single_upper. intros c r E.
  rewrite upper_char_ascii; [done|].
  destruct (lstrip_with_split isspace s) as (k1 & Hk1 & _).
  destruct (rstrip_with_split isspace (lstrip_with isspace s)) as (k2 & Hk2 & _).
  fold (strip s) in Hk2. rewrite Hk2, E in Hk1. rewrite Hk1 in Hs.
  apply Forall_app in Hs as [_ Hs]. simpl in Hs. by apply Forall_cons in Hs as [? _].
Qed.

Lemma normalize_choice_strip (s : pystr) :
  normalize_choice unicode_upper (strip s) = normalize_choice unicode_upper s.
Proof. unfold normalize_choice. by rewrite strip_idem. Qed.

(** The answer is graded correct exactly when the normalised forms agree. *)
Lemma grade_single_choice_iff (user_answer stored_answer : pystr) :
  grade_single_choice unicode_upper user_answer stored_answer = true
  ↔ normalize_choice unicode_upper user_answer
    = normalize_choice unicode_upper stored_answer.
Proof.
  unfold grade_single_choice. rewrite bool_decide_eq_true.
  by rewrite !normalize_choice_strip.
Qed.

Lemma normalize_choice_examples :
  normalize_choice unicode_upper (ustr "c. some text")
    = normalize_choice unicode_upper (ustr "C")
  ∧ normalize_choice unicode_upper (ustr "C") = ustr "C"
  ∧ normalize_choice unicode_upper [] = []
  ∧ grade_single_choice unicode_upper (ustr "C. Option text") (ustr "C") = true.
Proof. split_and!; reflexivity. Qed.

(** C2: the examples of the specification hold, and an answer is graded
    correct exactly when the normalised forms agree; but the normalisation
    is not the specified one on every string. The upper-case form of
    U+00DF (sharp s) is the two letters SS, which the test
    ['A' <= first <= 'Z'] lets through: the key of the answer is then SS,
    neither one letter A..Z nor the trimmed answer, and the answer U+00DF
    is graded correct against a stored answer that merely starts with
    U+00DF. *)
Theorem normalize_choice_sharp_s :
  normalize_choice unicode_upper (ustr "c. some text")
    = normalize_choice unicode_upper (ustr "C")
  ∧ normalize_choice unicode_upper [] = []
  ∧ grade_single_choice unicode_upper (ustr "C. Option text") (ustr "C") = true
  ∧ (∀ ua sa, grade_single_choice unicode_upper ua sa = true
              ↔ normalize_choice unicode_upper ua = normalize_choice unicode_upper sa)
  ∧ normalize_choice unicode_upper [0xDF] = ustr "SS"
  ∧ normalize_spec unicode_upper [0xDF] = [0xDF]
  ∧ grade_single_choice unicode_upper [0xDF] ([0xDF] ++ ustr ")") = true
  ∧ grade_spec unicode_upper [0xDF] ([0xDF] ++ ustr ")") = false.
Proof.
  split_and!; try reflexivity. apply grade_single_choice_iff.
Qed.

End GradingFacts.

(** ** The clients fail soft *)

Section ClientFacts.

Variable json_loads : pystr -> option json.
Variable float_of_str : pystr -> option float.
Variable str_of_object : json -> pystr.

Lemma generate_returns (api_key : pystr) (t : transport) :
  ∃ l, generate_questions_from_note json_loads api_key t = Ok l.
Proof.
  unfold generate_questions_from_note. destruct (negb (nonempty api_key)); [by eexists|].
  destruct (generate_body json_loads t); simpl; by eexists.
Qed.

Lemma generate_body_raise_empty (api_key : pystr) (t : transport) (e : exn) :
  generate_body json_loads t = Raise e ->
  generate_questions_from_note json_loads api_key t = Ok [].
Proof.
  intros H. unfold generate_questions_from_note. rewrite H.
  by destruct (negb (nonempty api_key)).
Qed.

Lemma score_body_raise_failed (api_key : pystr) (t : transport) (e : exn) :
  nonempty api_key = true ->
  score_body json_loads float_of_str str_of_object t = Raise e ->
  score_answer json_loads float_of_str str_of_object api_key t
  = Ok (0%float, msg_failed).
Proof. intros Hk H. unfold score_answer. by rewrite Hk, H. Qed.

(** C5: neither operation raises: each returns a value on every input.
    Without a credential, [generate_questions_from_note] returns the empty
    list and [score_answer] the score 0.0 with a message. With a
    credential: when the remote call fails (no reply, an error status, a
    body that is no JSON) the results are the empty list and
    [(0.0, message)]; when the reply holds no text they are the empty list
    and [(0.0, message)]; when the text is no JSON they are the empty list
    and [(0.0, message)]; and when the text is JSON other than an array the
    question list is empty. *)
Theorem clients_fail_soft (api_key : pystr) (t : transport) :
  (∃ l, generate_questions_from_note json_loads api_key t = Ok l)
  ∧ (∃ s c, score_answer json_loads float_of_str str_of_object api_key t = Ok (s, c))
  ∧ (nonempty api_key = false ->
       generate_questions_from_note json_loads api_key t = Ok []
       ∧ score_answer json_loads float_of_str str_of_object api_key t
         = Ok (0%float, msg_no_api_key))
  ∧ (nonempty api_key = true ->
       (∀ e, post_json t = Raise e ->
          generate_questions_from_note json_loads api_key t = Ok []
          ∧ score_answer json_loads float_of_str str_of_object api_key t
            = Ok (0%float, msg_failed))
       ∧ (∀ data output_text,
            post_json t = Ok data -> output_text_of data = Ok output_text ->
            truthy output_text = false ->
            generate_questions_from_note json_loads api_key t = Ok []
            ∧ score_answer json_loads float_of_str str_of_object api_key t
              = Ok (0%float, msg_no_content))
       ∧ (∀ data output_text text,
            post_json t = Ok data -> output_text_of data = Ok output_text ->
            truthy output_text = true ->
            clean_output_text output_text = Ok text ->
            (json_loads text = None ->
               generate_questions_from_note json_loads api_key t = Ok []
               ∧ score_answer json_loads float_of_str str_of_object api_key t
                 = Ok (0%float, msg_failed))
            ∧ (∀ v, json_loads text = Some v -> (∀ items, v ≠ JArr items) ->
                 generate_questions_from_note json_loads api_key t = Ok []))).
Proof.
  split; [apply generate_returns|].
  split.
  { destruct (score_answer_in_unit json_loads float_of_str str_of_object api_key t)
      as (s & c & H & _). by exists s, c. }
  split.
  { intros Hk. unfold generate_questions_from_note, score_answer. by rewrite Hk. }
  intros Hk. split_and!.
  - intros e He. split.
    + apply (generate_body_raise_empty _ _ e). unfold generate_body. by rewrite He.
    + apply (score_body_raise_failed _ _ e Hk). unfold score_body. by rewrite He.
  - intros data output_text Hd Ho Ht.
    unfold generate_questions_from_note, score_answer, generate_body, score_body.
    rewrite Hk, Hd. simpl. rewrite Ho. simpl. by rewrite Ht.
  - intros data output_text text Hd Ho Ht Hc. split.
    + intros Hl. split.
      * apply (generate_body_raise_empty _ _ JSONDecodeError).
        unfold generate_body. rewrite Hd. simpl. rewrite Ho. simpl.
        rewrite Ht. simpl. rewrite Hc. simpl. by rewrite Hl.
      * apply (score_body_raise_failed _ _ JSONDecodeError Hk).
        unfold score_body. rewrite Hd. simpl. rewrite Ho. simpl.
        rewrite Ht. simpl. rewrite Hc. simpl. by rewrite Hl.
    + intros v Hl Hv.
      unfold generate_questions_from_note, generate_body.
      rewrite Hk, Hd. simpl. rewrite Ho. simpl. rewrite Ht. simpl.
      rewrite Hc. simpl. rewrite Hl. simpl.
      destruct v; try done. by destruct (Hv items).
Qed.

End ClientFacts.

(** [clients_fail_soft] at a call with a credential that gets no reply. *)
Lemma clients_fail_soft_witness :
  generate_questions_from_note (fun _ => None) (ustr "sk-1") NoReply = Ok []
  ∧ score_answer (fun _ => None) (fun _ => None) (fun _ => []) (ustr "sk-1") NoReply
    = Ok (0%float, msg_failed).
Proof.
  destruct (clients_fail_soft (fun _ => None) (fun _ => None) (fun _ => [])
              (ustr "sk-1") NoReply) as (_ & _ & _ & H).
  destruct (H eq_refl) as (H1 & _ & _).
  exact (H1 RequestException eq_refl).
Defined.


(** ** Parsing of the generated questions *)

Lemma json_induction (P : json -> Prop) :
  P JNull -> (∀ b, P (JBool b)) -> (∀ z, P (JInt z)) -> (∀ f, P (JFloat f)) ->
  (∀ s, P (JStr s)) ->
  (∀ items, Forall P items -> P (JArr items)) ->
  (∀ fields, Forall (fun kv => P kv.2) fields -> P (JObj fields)) ->
  ∀ v, P v.
Proof.
  intros HN HB HI HF HS HA HO. fix IH 1.
  intros [| b | z | f | s | items | fields];
    [apply HN | apply HB | apply HI | apply HF | apply HS | | ].
  - apply HA. induction items as [|v r IHr]; constructor; [apply IH | apply IHr].
  - apply HO. induction fields as [|[k v] r IHr]; constructor; [apply IH | apply IHr].
Qed.

(** The truthy part of a result of [_extract_first_str]. *)
Lemma extract_first_str_dfs (obj : json) :
  match _extract_first_str obj with
  | Some s => if nonempty s then Some s else None
  | None => None
  end = head (List.filter nonempty (strings_of obj)).
Proof.
  induction obj as [| | | | s | items IH | fields IH] using json_induction;
    try reflexivity.
  - simpl. by destruct (nonempty s).
  - simpl. induction IH as [|v r Hv _ IHr]; [done|].
    rewrite List.filter_app.
    destruct (_extract_first_str v) as [s|].
    + destruct (nonempty s) eqn:Hs.
      * rewrite Hs. by destruct (List.filter nonempty (strings_of v)); inversion Hv.
      * destruct (List.filter nonempty (strings_of v)); [|done]. apply IHr.
    + destruct (List.filter nonempty (strings_of v)); [|done]. apply IHr.
  - simpl. induction IH as [|[k v] r Hv _ IHr]; [done|].
    rewrite List.filter_app. simpl in Hv.
    destruct (_extract_first_str v) as [s|].
    + destruct (nonempty s) eqn:Hs.
      * rewrite Hs. by destruct (List.filter nonempty (strings_of v)); inversion Hv.
      * destruct (List.filter nonempty (strings_of v)); [|done]. apply IHr.
    + destruct (List.filter nonempty (strings_of v)); [|done]. apply IHr.
Qed.

(** Below a [dict] or a [list] the search returns the first non-empty
    string in depth-first order, whatever empty strings precede it. *)
Lemma extract_first_str_nonempty (obj : json) :
  (∀ s, obj ≠ JStr s) ->
  _extract_first_str obj = head (List.filter nonempty (strings_of obj)).
Proof.
  intros Hobj. rewrite <- extract_first_str_dfs.
  destruct obj as [| | | | s | items | fields]; try reflexivity.
  - by destruct (Hobj s).
  - clear Hobj. simpl. induction items as [|v r IHr]; [done|].
    destruct (_extract_first_str v) as [s|].
    + destruct (nonempty s) eqn:Hs; [by rewrite Hs | apply IHr].
    + apply IHr.
  - clear Hobj. simpl. induction fields as [|[k v] r IHr]; [done|].
    destruct (_extract_first_str v) as [s|].
    + destruct (nonempty s) eqn:Hs; [by rewrite Hs | apply IHr].
    + apply IHr.
Qed.




(** *** The code fence *)

Lemma lstrip_with_app_all (p : N -> bool) (k s : pystr) :
  Forall (fun c => p c = true) k -> lstrip_with p (k ++ s) = lstrip_with p s.
Proof. induction 1 as [|c k Hc _ IH]; simpl; [done|]. by rewrite Hc. Qed.








Section GenerationFacts.

Variable json_loads : pystr -> option json.



End GenerationFacts.



(** ** Insertion without duplicates *)

Lemma nonempty_true_iff {A} (s : list A) : nonempty s = true ↔ s ≠ [].
Proof. by destruct s. Qed.


Section DedupFacts.

Variable json_dumps : json -> pystr.






End DedupFacts.

(** ** Deletion of a note *)

Lemma filter_all {A} (P : A -> Prop) `{∀ x, Decision (P x)} (l : list A) :
  Forall P l -> filter P l = l.
Proof.
  induction 1 as [|x l Hx _ IH]; [done|].
  rewrite filter_cons_True by done. by f_equal.
Qed.

Lemma question_id_of_note (d : db) (n qid : Z) :
  qid ∈ q_id <$> filter (fun r => q_note_id r = n) (questions d)
  ↔ Exists (fun r => q_note_id r = n ∧ q_id r = qid) (questions d).
Proof.
  rewrite list_elem_of_fmap, Exists_exists. split.
  - intros (r & -> & Hr). apply list_elem_of_filter in Hr as [Hn Hr]. by exists r.
  - intros (r & Hr & Hn & <-). exists r. split; [done|].
    by apply list_elem_of_filter.
Qed.

Lemma delete_answers_of_note_answers (d : db) (n : Z) :
  user_answers (delete_answers_of_note d n)
  = filter (fun a => ¬ Exists (fun r => q_note_id r = n ∧ q_id r = a_question_id a)
                        (questions d))
      (user_answers d).
Proof.
  unfold delete_answers_of_note. simpl.
  destruct (nonempty (q_id <$> filter (fun r => q_note_id r = n) (questions d)))
    eqn:Hne.
  - apply list_filter_iff. intros a. by rewrite question_id_of_note.
  - symmetry. apply filter_all. apply Forall_forall. intros a _ Hex.
    apply question_id_of_note in Hex.
    destruct (q_id <$> filter (fun r => q_note_id r = n) (questions d)); [|done].
    by apply elem_of_nil in Hex.
Qed.

(** C7: [delete_note d n] removes exactly the answers that reference a
    question of the note [n], the questions of [n] and the note [n]: what
    is left of each table is the table without those rows, every other row
    as it was and in its place. The three statements run in dependency
    order: once the answers are deleted no remaining answer references a
    question of [n] (the questions and notes still untouched), and once
    the questions are deleted no question references [n] (the notes still
    untouched). *)
Theorem delete_note_cascade (d : db) (n : Z) :
  let d1 := delete_answers_of_note d n in
  let d2 := delete_questions_of_note d1 n in
  let d' := delete_note d n in
  d' = delete_note_row d2 n
  ∧ user_answers d'
    = filter (fun a => ¬ Exists (fun r => q_note_id r = n ∧ q_id r = a_question_id a)
                          (questions d))
        (user_answers d)
  ∧ questions d' = filter (fun r => q_note_id r ≠ n) (questions d)
  ∧ notes d' = filter (fun m => n_id m ≠ n) (notes d)
  ∧ (seq_notes d', seq_questions d', seq_user_answers d')
    = (seq_notes d, seq_questions d, seq_user_answers d)
  ∧ (questions d1 = questions d ∧ notes d1 = notes d
     ∧ ∀ a r, a ∈ user_answers d1 -> r ∈ questions d1 -> q_note_id r = n ->
              a_question_id a ≠ q_id r)
  ∧ (user_answers d2 = user_answers d1 ∧ notes d2 = notes d
     ∧ ∀ r, r ∈ questions d2 -> q_note_id r ≠ n)
  ∧ (∀ a, a ∈ user_answers d ->
          (∀ r, r ∈ questions d -> q_id r = a_question_id a -> q_note_id r ≠ n) ->
          a ∈ user_answers d')
  ∧ (∀ r, r ∈ questions d -> q_note_id r ≠ n -> r ∈ questions d')
  ∧ (∀ m, m ∈ notes d -> n_id m ≠ n -> m ∈ notes d').
Proof.
  intros d1 d2 d'.
  assert (Ha : user_answers d' = user_answers d1) by reflexivity.
  split_and!; try reflexivity.
  - rewrite Ha. apply delete_answers_of_note_answers.
  - intros a r Hin Hr Hn Heq. unfold d1 in Hin.
    rewrite delete_answers_of_note_answers in Hin.
    apply list_elem_of_filter in Hin as [Hno _]. apply Hno.
    apply Exists_exists. by exists r.
  - intros r Hr. unfold d2, delete_questions_of_note in Hr. simpl in Hr.
    by apply list_elem_of_filter in Hr as [? _].
  - intros a Hin Hrefs. rewrite Ha. unfold d1.
    rewrite delete_answers_of_note_answers. apply list_elem_of_filter.
    split; [|done]. intros Hex. apply Exists_exists in Hex as (r & Hr & Hn & Hid).
    by apply (Hrefs r).
  - intros r Hr Hn. change (r ∈ filter (fun r => q_note_id r ≠ n) (questions d)).
    by apply list_elem_of_filter.
  - intros m Hm Hn. change (m ∈ filter (fun m => n_id m ≠ n) (notes d)).
    by apply list_elem_of_filter.
Qed.

(** ** The order of strings *)

Lemma str_compare_refl (a : pystr) : str_compare a a = Eq.
Proof. induction a as [|x a IH]; simpl; [done|]. by rewrite N.compare_refl. Qed.

Lemma str_compare_eq (a b : pystr) : str_compare a b = Eq -> a = b.
Proof.
  revert b. induction a as [|x a IH]; intros [|y b]; simpl; try done.
  destruct (N.compare_spec x y) as [-> | |]; try done.
  intros H. f_equal. by apply IH.
Qed.

Lemma str_compare_antisym (a b : pystr) :
  str_compare b a = CompOpp (str_compare a b).
Proof.
  revert b. induction a as [|x a IH]; intros [|y b]; simpl; try done.
  rewrite (N.compare_antisym x y).
  destruct (x ?= y); simpl; [apply IH | done | done].
Qed.

Lemma str_compare_lt_trans (a b c : pystr) :
  str_compare a b = Lt -> str_compare b c = Lt -> str_compare a c = Lt.
Proof.
  revert b c. induction a as [|x a IH]; intros [|y b] [|z c]; simpl; try done.
  destruct (N.compare_spec x y) as [-> | Hxy | Hxy]; try done.
  - destruct (N.compare_spec y z) as [-> | Hyz | Hyz]; try done. apply IH.
  - destruct (N.compare_spec y z) as [-> | Hyz | Hyz]; try done.
    + intros _ _. by apply N.compare_lt_iff in Hxy as ->.
    + intros _ _. assert (x < z) as Hxz by lia. by apply N.compare_lt_iff in Hxz as ->.
Qed.

Lemma str_le_total (a b : pystr) : str_le a b = true ∨ str_le b a = true.
Proof.
  unfold str_le. rewrite (str_compare_antisym a b).
  destruct (str_compare a b); simpl; auto.
Qed.

Lemma str_le_trans (a b c : pystr) :
  str_le a b = true -> str_le b c = true -> str_le a c = true.
Proof.
  unfold str_le.
  destruct (str_compare a b) eqn:Eab; try done;
    destruct (str_compare b c) eqn:Ebc; try done; intros _ _.
  - apply str_compare_eq in Eab as ->. by rewrite Ebc.
  - apply str_compare_eq in Eab as ->. by rewrite Ebc.
  - apply str_compare_eq in Ebc as <-. by rewrite Eab.
  - by rewrite (str_compare_lt_trans a b c).
Qed.

Lemma str_le_refl (a : pystr) : str_le a a = true.
Proof. unfold str_le. by rewrite str_compare_refl. Qed.

(** ** Selection of questions *)

Lemma latest_note_exists (d : db) :
  notes d ≠ [] -> ∃ row, is_latest_note d row.
Proof.
  unfold is_latest_note. induction (notes d) as [|m l IH]; [done|]. intros _.
  destruct l as [|m' l'].
  { exists m. split; [by left|]. intros other Ho.
    apply list_elem_of_singleton in Ho as ->. apply str_le_refl. }
  destruct IH as (best & Hbest & Hmax); [done|].
  destruct (str_le_total (n_created_at m) (n_created_at best)) as [Hle | Hle].
  - exists best. split; [by right|]. intros other Ho.
    apply elem_of_cons in Ho as [-> | Ho]; [done | by apply Hmax].
  - exists m. split; [by left|]. intros other Ho.
    apply elem_of_cons in Ho as [-> | Ho]; [apply str_le_refl|].
    eapply str_le_trans; [by apply Hmax | done].
Qed.

Lemma resolves_to_exists (d : db) (nid : option Z) (scope : option pystr) :
  ∃ resolved, resolves_to d nid scope resolved.
Proof.
  destruct nid as [n|].
  { exists (Some n). by apply resolve_explicit. }
  destruct (decide (scope = Some (ustr "latest"))) as [Hs | Hs].
  - destruct (notes d) as [|m l] eqn:En.
    + exists None. by apply resolve_latest_none.
    + destruct (latest_note_exists d) as (row & Hrow); [by rewrite En|].
      exists (Some (n_id row)). by apply resolve_latest.
  - exists None. by apply resolve_unscoped.
Qed.

Lemma mapM_result_Forall2 {A B} (f : A -> result B) (l : list A) (k : list B) :
  mapM f l = Ok k -> Forall2 (fun x y => f x = Ok y) l k.
Proof.
  revert k. induction l as [|x l IH]; intros k; simpl.
  - intros [= <-]. constructor.
  - destruct (f x) as [y|] eqn:Ex; simpl; [|done].
    destruct (mapM f l) as [k'|]; simpl; [|done].
    intros [= <-]. constructor; [done | by apply IH].
Qed.

Lemma sql_limit_sublist {A} (n : Z) (rows : list A) :
  sql_limit n rows `sublist_of` rows.
Proof.
  unfold sql_limit. destruct (n <? 0)%Z; [done|]. apply sublist_take.
Qed.

Lemma sql_limit_length {A} (n : Z) (rows : list A) :
  (0 ≤ n)%Z -> (Z.of_nat (length (sql_limit n rows)) ≤ n)%Z.
Proof.
  intros Hn. unfold sql_limit.
  destruct (n <? 0)%Z eqn:E; [apply Z.ltb_lt in E; lia|].
  rewrite length_take. lia.
Qed.

Lemma sql_limit_all {A} (n : Z) (rows : list A) :
  (n < 0 ∨ Z.of_nat (length rows) ≤ n)%Z -> sql_limit n rows = rows.
Proof.
  intros Hn. unfold sql_limit.
  destruct (n <? 0)%Z eqn:E; [done|]. apply Z.ltb_ge in E.
  apply take_ge. lia.
Qed.

Section QueryFacts.

Variable json_loads : pystr -> option json.


Lemma row_to_question_dict_fields (row : question_row) (q : question) :
  _row_to_question_dict json_loads row = Ok q ->
  id q = q_id row ∧ note_id q = q_note_id row
  ∧ knowledge_tag q = q_knowledge_tag row ∧ q_type q = q_q_type row
  ∧ content q = q_content row ∧ answer q = q_answer row
  ∧ analysis q = q_analysis row ∧ difficulty q = q_difficulty row.
Proof.
  unfold _row_to_question_dict.
  destruct (json_loads _) as [opts|]; simpl; [|done].
  intros [= <-]. by split_and!.
Qed.


(** Every order of the matching rows is a possible outcome. *)
Lemma get_questions_by_knowledge_any_order (d : db) (tags : list pystr) (limit : Z)
  (nid : option Z) (scope : option pystr) (qt : option pystr) :
  ∃ resolved, resolves_to d nid scope resolved
    ∧ ∀ shuffled,
        shuffled ≡ₚ List.filter (matches resolved tags qt) (questions d) ->
        get_questions_by_knowledge json_loads d tags limit nid scope qt
          (mapM (_row_to_question_dict json_loads) (sql_limit limit shuffled)).
Proof.
  destruct (resolves_to_exists d nid scope) as (resolved & Hres).
  exists resolved. split; [done|]. intros shuffled Hperm.
  by exists resolved, shuffled.
Qed.

End QueryFacts.

(** ** Options survive storage *)

Lemma filter_none {A} (P : A -> Prop) `{∀ x, Decision (P x)} (l : list A) :
  (∀ x, x ∈ l -> ¬ P x) -> filter P l = [].
Proof.
  induction l as [|y l IH]; intros Hl; [done|].
  rewrite filter_cons_False by (apply Hl; by left).
  apply IH. intros x Hx. apply Hl. by right.
Qed.

Lemma filter_unique_key {A} (f : A -> Z) (l : list A) (x : A) :
  NoDup (f <$> l) -> x ∈ l -> filter (fun y => f y = f x) l = [x].
Proof.
  induction l as [|y l IH]; intros Hnd Hx; [by apply elem_of_nil in Hx|].
  rewrite fmap_cons in Hnd. apply NoDup_cons in Hnd as [Hy Hnd].
  apply elem_of_cons in Hx as [-> | Hx].
  - rewrite filter_cons_True by done. f_equal.
    apply filter_none. intros z Hz Heq. apply Hy. rewrite <- Heq.
    by apply list_elem_of_fmap_2.
  - rewrite filter_cons_False; [by apply IH|].
    intros Heq. apply Hy. rewrite Heq. by apply list_elem_of_fmap_2.
Qed.

Section RoundTripFacts.

Variable json_dumps : json -> pystr.
Variable json_loads : pystr -> option json.


(** The rows the loop of [insert_question_batch] appends. *)
Lemma insert_loop_rows (clock : Z -> timestamp) (nid : Z) (qs : list draft) :
  ∀ (d : db) (existing : gset pystr),
    ∃ new,
      questions (insert_loop json_dumps clock nid qs d existing) = questions d ++ new
      ∧ (seq_questions d
         ≤ seq_questions (insert_loop json_dumps clock nid qs d existing))%Z
      ∧ Forall (fun row =>
                  (seq_questions d < q_id row
                   ≤ seq_questions (insert_loop json_dumps clock nid qs d existing))%Z
                  ∧ ∃ q c, q ∈ qs ∧ d_content q = Some c ∧ c ≠ []
                      ∧ row = question_row_of json_dumps (q_id row) nid
                                (clock (q_id row)) q c) new
      ∧ NoDup (q_id <$> new).
Proof.
  induction qs as [|q qs IH]; intros d existing.
  { exists []. simpl. rewrite app_nil_r. split_and!; try done. constructor. }
  simpl. set (content := default [] (d_content q)).
  assert (Hskip :
    ∃ new,
      questions (insert_loop json_dumps clock nid qs d existing) = questions d ++ new
      ∧ (seq_questions d
         ≤ seq_questions (insert_loop json_dumps clock nid qs d existing))%Z
      ∧ Forall (fun row =>
                  (seq_questions d < q_id row
                   ≤ seq_questions (insert_loop json_dumps clock nid qs d existing))%Z
                  ∧ ∃ q0 c, q0 ∈ q :: qs ∧ d_content q0 = Some c ∧ c ≠ []
                      ∧ row = question_row_of json_dumps (q_id row) nid
                                (clock (q_id row)) q0 c) new
      ∧ NoDup (q_id <$> new)).
  { destruct (IH d existing) as (new & H1 & H2 & H3 & H4).
    exists new. split_and!; try done.
    eapply Forall_impl; [exact H3|]. intros row (Hid & q0 & c & Hq0 & Hrest).
    split; [done|]. exists q0, c. split; [by right | done]. }
  destruct (nonempty content) eqn:Hne; simpl; [|exact Hskip].
  case_bool_decide as Hin; [exact Hskip|]. clear Hskip.
  set (d1 := add_question json_dumps clock d nid q content).
  destruct (IH d1 ({[content]} ∪ existing)) as (new & H1 & H2 & H3 & H4).
  set (row0 := question_row_of json_dumps (seq_questions d + 1) nid
                 (clock (seq_questions d + 1)%Z) q content).
  assert (Hseq1 : seq_questions d1 = (seq_questions d + 1)%Z) by reflexivity.
  exists (row0 :: new). split_and!.
  - rewrite H1. unfold d1, add_question. simpl. by rewrite <- app_assoc.
  - lia.
  - constructor.
    + split; [simpl; lia|]. exists q, content. split_and!.
      * by left.
      * unfold content in *. destruct (d_content q); [done|]. discriminate Hne.
      * by apply nonempty_true_iff.
      * reflexivity.
    + eapply Forall_impl; [exact H3|]. intros row (Hid & q0 & c & Hq0 & Hrest).
      split; [lia|]. exists q0, c. split; [by right | done].
  - rewrite fmap_cons. apply NoDup_cons. split; [|done].
    intros Hin0. apply list_elem_of_fmap in Hin0 as (row & Heq & Hrow).
    rewrite Forall_forall in H3. destruct (H3 row Hrow) as [Hid _].
    simpl in Heq. lia.
Qed.



End RoundTripFacts.

(** ** Statistics *)

Lemma int_truediv_fraction (a b : Z) :
  (0 ≤ a ≤ b)%Z -> (0 < b)%Z -> int_truediv a b = Ok (quotient a b).
Proof.
  intros Ha Hb. unfold int_truediv.
  destruct (b =? 0)%Z eqn:E0; [apply Z.eqb_eq in E0; lia|].
  assert (Hthr : (2 ≤ overflow_threshold)%Z) by (by vm_compute).
  destruct (overflow_threshold * Z.abs b <=? Z.abs a)%Z eqn:E; [|done].
  apply Z.leb_le in E. revert Hthr E. generalize overflow_threshold. intros T HT E.
  rewrite !Z.abs_eq in E by lia. nia.
Qed.

Lemma str_lt_irrefl (a : pystr) : str_lt a a = false.
Proof. unfold str_lt. by rewrite str_compare_refl. Qed.

Lemma str_lt_trans (a b c : pystr) :
  str_lt a b = true -> str_lt b c = true -> str_lt a c = true.
Proof.
  unfold str_lt.
  destruct (str_compare a b) eqn:Eab; try done.
  destruct (str_compare b c) eqn:Ebc; try done.
  by rewrite (str_compare_lt_trans a b c).
Qed.

Lemma str_lt_ne (a b : pystr) : str_lt a b = true -> a ≠ b.
Proof. intros H ->. by rewrite str_lt_irrefl in H. Qed.

Section StatsFacts.

Variable strftime_YW : timestamp -> pystr.

Lemma group_insert_keys (w : pystr) (c : bool) (groups : list week_group) (g' : week_group) :
  g' ∈ group_insert w c groups ->
  g_week g' = w ∨ ∃ g, g ∈ groups ∧ g_week g' = g_week g.
Proof.
  induction groups as [|g rest IH]; simpl.
  - intros ->%list_elem_of_singleton. by left.
  - destruct (str_compare w (g_week g)) eqn:E.
    + intros [-> | H]%elem_of_cons.
      * right. exists g. split; [by left | done].
      * right. exists g'. split; [by right | done].
    + intros [-> | H]%elem_of_cons; [by left|].
      right. by exists g'.
    + intros [-> | H]%elem_of_cons.
      * right. exists g. split; [by left | done].
      * destruct (IH H) as [? | (g0 & Hg0 & ?)]; [by left|].
        right. exists g0. split; [by right | done].
Qed.

Lemma group_insert_sorted (w : pystr) (c : bool) (groups : list week_group) :
  weeks_ascending groups -> weeks_ascending (group_insert w c groups).
Proof.
  unfold weeks_ascending.
  induction 1 as [|g rest Hrest IH Hg]; simpl.
  - by repeat constructor.
  - destruct (str_compare w (g_week g)) eqn:E.
    + apply str_compare_eq in E. constructor; [done|]. simpl. done.
    + constructor; [by constructor|]. constructor.
      * simpl. unfold str_lt. by rewrite E.
      * eapply Forall_impl; [exact Hg|]. simpl. intros g2 H2.
        eapply str_lt_trans; [|exact H2]. unfold str_lt. by rewrite E.
    + constructor; [done|]. apply Forall_forall. intros g' Hg'.
      apply group_insert_keys in Hg' as [-> | (g0 & Hg0 & ->)].
      * unfold str_lt. rewrite (str_compare_antisym w (g_week g)), E. done.
      * rewrite Forall_forall in Hg. by apply Hg.
Qed.

Lemma select_by_week_sorted (answers : list answer_row) :
  weeks_ascending (select_by_week strftime_YW answers).
Proof.
  induction answers as [|a answers IH]; simpl; [constructor|].
  by apply group_insert_sorted.
Qed.

Lemma group_of_cons (w : pystr) (g : week_group) (rest : list week_group) :
  group_of w (g :: rest) = if decide (g_week g = w) then Some g else group_of w rest.
Proof. unfold group_of. rewrite filter_cons. by case_decide. Qed.

Lemma group_of_above (w : pystr) (groups : list week_group) :
  Forall (fun g => str_lt w (g_week g) = true) groups -> group_of w groups = None.
Proof.
  induction 1 as [|g rest Hg _ IH]; [done|].
  rewrite group_of_cons, decide_False; [done|].
  intros Heq. apply str_lt_ne in Hg. done.
Qed.

Lemma group_of_insert (w w' : pystr) (c : bool) (groups : list week_group) :
  weeks_ascending groups ->
  group_of w' (group_insert w c groups)
  = if decide (w = w')
    then Some {| g_week := w;
                 g_total := from_option g_total 0%Z (group_of w groups) + 1;
                 g_correct := from_option g_correct 0%Z (group_of w groups)
                              + Z.b2z c |}
    else group_of w' groups.
Proof.
  unfold weeks_ascending.
  induction 1 as [|g rest Hrest IH Hg]; simpl.
  - rewrite group_of_cons. simpl. by case_decide.
  - destruct (str_compare w (g_week g)) eqn:E.
    + apply str_compare_eq in E. subst w.
      rewrite !group_of_cons. simpl.
      destruct (decide (g_week g = g_week g)) as [_|]; [|done]. simpl.
      by case_decide.
    + rewrite (group_of_cons w'). simpl.
      assert (group_of w (g :: rest) = None) as ->.
      { apply group_of_above. constructor.
        - unfold str_lt. by rewrite E.
        - eapply Forall_impl; [exact Hg|]. simpl. intros g2 H2.
          eapply str_lt_trans; [|exact H2]. unfold str_lt. by rewrite E. }
      simpl. case_decide; done.
    + assert (g_week g ≠ w) as Hne.
      { intros <-. by rewrite str_compare_refl in E. }
      rewrite !group_of_cons, IH. rewrite (decide_False (P := g_week g = w)) by done.
      case_decide as Hw; [subst w'; by rewrite decide_False|done].
Qed.

Lemma group_of_self (groups : list week_group) (g : week_group) :
  weeks_ascending groups -> g ∈ groups -> group_of (g_week g) groups = Some g.
Proof.
  unfold weeks_ascending.
  induction 1 as [|g0 rest Hrest IH Hg0]; intros Hin; [by apply elem_of_nil in Hin|].
  rewrite group_of_cons. apply elem_of_cons in Hin as [-> | Hin].
  - by rewrite decide_True.
  - rewrite decide_False; [by apply IH|].
    rewrite Forall_forall in Hg0. apply str_lt_ne. by apply Hg0.
Qed.

(** The group of a week counts the answers of the week. *)
Lemma select_by_week_group_of (answers : list answer_row) (w : pystr) :
  group_of w (select_by_week strftime_YW answers)
  = if decide (answers_in_week strftime_YW w answers = []) then None
    else Some {| g_week := w;
                 g_total := Z.of_nat (length (answers_in_week strftime_YW w answers));
                 g_correct :=
                   Z.of_nat (length (filter (fun a => a_is_correct a = true)
                                       (answers_in_week strftime_YW w answers))) |}.
Proof.
  induction answers as [|a answers IH]; [done|].
  simpl. rewrite group_of_insert by apply select_by_week_sorted.
  unfold answers_in_week. rewrite filter_cons.
  fold (answers_in_week strftime_YW w answers).
  destruct (decide (strftime_YW (a_created_at a) = w)) as [Hw|Hw]; [|apply IH].
  rewrite Hw, IH.
  destruct (decide (a :: answers_in_week strftime_YW w answers = [])) as [?|_];
    [done|].
  f_equal. rewrite filter_cons.
  destruct (decide (answers_in_week strftime_YW w answers = [])) as [Hnil|Hnil].
  - rewrite Hnil. simpl. rewrite filter_nil.
    destruct (decide (a_is_correct a = true)) as [Hc|Hc].
    + by rewrite Hc.
    + apply not_true_is_false in Hc. by rewrite Hc.
  - simpl. destruct (decide (a_is_correct a = true)) as [Hc|Hc].
    + rewrite Hc. simpl. f_equal; lia.
    + apply not_true_is_false in Hc. rewrite Hc. simpl. f_equal; lia.
Qed.

End StatsFacts.

Lemma count_flags_sum (l : list answer_row) :
  Z.of_nat (length (filter (fun a => a_is_correct a = true) l))
  = foldr (fun a sum => (Z.b2z (a_is_correct a) + sum)%Z) 0%Z l.
Proof.
  induction l as [|a l IH]; [done|].
  rewrite filter_cons. simpl. rewrite <- IH.
  destruct (decide (a_is_correct a = true)) as [Hc|Hc].
  - rewrite Hc. simpl. lia.
  - apply not_true_is_false in Hc. rewrite Hc. simpl. lia.
Qed.

Section OverviewFacts.

Variable strftime_YW : timestamp -> pystr.

Lemma or_zero_id (x : Z) : or_zero x = x.
Proof. unfold or_zero. destruct (x =? 0)%Z eqn:E; [|done]. by apply Z.eqb_eq in E. Qed.

Lemma mapM_result_all_ok {A B} (f : A -> result B) (g : A -> B) (l : list A) :
  (∀ x, x ∈ l -> f x = Ok (g x)) -> mapM f l = Ok (g <$> l).
Proof.
  induction l as [|x l IH]; intros Hl; [done|].
  simpl. rewrite (Hl x) by (by left). simpl.
  rewrite IH by (intros y Hy; apply Hl; by right). done.
Qed.

Lemma group_of_Some (w : pystr) (groups : list week_group) (g : week_group) :
  group_of w groups = Some g -> g ∈ groups ∧ g_week g = w.
Proof.
  unfold group_of. intros H.
  assert (g ∈ filter (fun g => g_week g = w) groups) as Hin.
  { destruct (filter _ groups) as [|g0 l]; [done|]. injection H as ->. by left. }
  apply list_elem_of_filter in Hin. tauto.
Qed.

Lemma group_counts (answers : list answer_row) (g : week_group) :
  g ∈ select_by_week strftime_YW answers ->
  g_total g = Z.of_nat (length (answers_in_week strftime_YW (g_week g) answers))
  ∧ g_correct g
    = Z.of_nat (length (filter (fun a => a_is_correct a = true)
                          (answers_in_week strftime_YW (g_week g) answers)))
  ∧ (0 < g_total g)%Z
  ∧ (0 ≤ g_correct g ≤ g_total g)%Z.
Proof.
  intros Hg.
  pose proof (group_of_self _ g (select_by_week_sorted strftime_YW answers) Hg) as Hself.
  rewrite select_by_week_group_of in Hself.
  destruct (decide (answers_in_week strftime_YW (g_week g) answers = []))
    as [|Hne]; [done|].
  destruct g as [w t c]. simpl in *. injection Hself as Ht Hc.
  pose proof (length_filter (fun a => a_is_correct a = true)
                (answers_in_week strftime_YW w answers)) as Hle.
  assert (0 < length (answers_in_week strftime_YW w answers))%nat
    by (destruct (answers_in_week strftime_YW w answers); [done | simpl; lia]).
  split_and!; try done; lia.
Qed.

Lemma group_covers (answers : list answer_row) (a : answer_row) :
  a ∈ answers ->
  ∃ g, g ∈ select_by_week strftime_YW answers
       ∧ g_week g = strftime_YW (a_created_at a).
Proof.
  intros Ha.
  pose proof (select_by_week_group_of strftime_YW answers
                (strftime_YW (a_created_at a))) as H.
  destruct (decide (answers_in_week strftime_YW (strftime_YW (a_created_at a))
                      answers = [])) as [Hnil|_].
  { assert (a ∈ answers_in_week strftime_YW (strftime_YW (a_created_at a)) answers)
      as Hin by (by apply list_elem_of_filter).
    rewrite Hnil in Hin. by apply elem_of_nil in Hin. }
  apply group_of_Some in H as [Hin Hw]. eauto.
Qed.

(** The conversion of one row of the SELECT in [get_stats_by_week]. *)
Lemma week_stats_of_group (answers : list answer_row) (g : week_group) :
  g ∈ select_by_week strftime_YW answers ->
  (accuracy ← ratio_or_zero (or_zero (g_correct g)) (or_zero (g_total g));
   Ok {| week := g_week g; total := or_zero (g_total g);
         correct := or_zero (g_correct g); accuracy := accuracy |})
  = Ok {| week := g_week g; total := g_total g; correct := g_correct g;
          accuracy := PyFloat (quotient (g_correct g) (g_total g)) |}.
Proof.
  intros Hg. destruct (group_counts answers g Hg) as (_ & _ & Hpos & Hc).
  rewrite !or_zero_id. unfold ratio_or_zero.
  destruct (g_total g =? 0)%Z eqn:E; [apply Z.eqb_eq in E; lia|].
  by rewrite int_truediv_fraction.
Qed.

Lemma get_stats_by_week_value (d : db) :
  get_stats_by_week strftime_YW d
  = Ok ((fun g => {| week := g_week g; total := g_total g; correct := g_correct g;
                     accuracy := PyFloat (quotient (g_correct g) (g_total g)) |})
          <$> select_by_week strftime_YW (user_answers d)).
Proof.
  unfold get_stats_by_week. apply mapM_result_all_ok.
  intros g Hg. by apply (week_stats_of_group (user_answers d)).
Qed.

(** C8: [get_stats_overview] returns, for every set of answers: the number
    of answers and of correct answers; the accuracy, which is 0 without
    answers (no division takes place) and the quotient of the two numbers
    otherwise, 2/3 for three answers of which two are correct; and
    [by_week], with one bucket for every week key of an answer, in strictly
    ascending order of the key, each with the number of answers of the
    week, the sum of their flags and the quotient of the two (the code
    gives 0 for a total of 0). *)
Theorem stats_overview_correct (d : db) :
  let answers := user_answers d in
  let n := Z.of_nat (length answers) in
  let c := Z.of_nat (length (filter (fun a => a_is_correct a = true) answers)) in
  ∃ s, get_stats_overview strftime_YW d = Ok s
    ∧ total_answers s = n
    ∧ correct_answers s = c
    ∧ overall_accuracy s = (if decide (n = 0%Z) then PyInt 0 else PyFloat (quotient c n))
    ∧ (n = 3%Z -> c = 2%Z ->
       overall_accuracy s = PyFloat (PrimFloat.div 2%float 3%float)
       ∧ PrimFloat.div 2%float 3%float = 0.6666666666666666%float)
    ∧ (∀ x, ratio_or_zero x 0 = Ok (PyInt 0))
    ∧ StronglySorted (fun w1 w2 => str_lt w1 w2 = true) (week <$> by_week s)
    ∧ (∀ b, b ∈ by_week s ->
         total b = Z.of_nat (length (answers_in_week strftime_YW (week b) answers))
         ∧ correct b
           = Z.of_nat (length (filter (fun a => a_is_correct a = true)
                                 (answers_in_week strftime_YW (week b) answers)))
         ∧ correct b
           = foldr (fun a sum => (Z.b2z (a_is_correct a) + sum)%Z) 0%Z
               (answers_in_week strftime_YW (week b) answers)
         ∧ (0 < total b)%Z
         ∧ accuracy b = PyFloat (quotient (correct b) (total b)))
    ∧ (∀ a, a ∈ answers ->
         ∃ b, b ∈ by_week s ∧ week b = strftime_YW (a_created_at a)).
Proof.
  intros answers n c.
  assert (Hc : (0 ≤ c ≤ n)%Z).
  { unfold c, n. pose proof (length_filter (fun a => a_is_correct a = true) answers).
    lia. }
  assert (Hacc : ratio_or_zero c n
                 = Ok (if decide (n = 0%Z) then PyInt 0 else PyFloat (quotient c n))).
  { unfold ratio_or_zero. case_decide as Hn.
    - by rewrite Hn.
    - destruct (n =? 0)%Z eqn:E; [apply Z.eqb_eq in E; lia|].
      rewrite int_truediv_fraction by lia. done. }
  eexists. split.
  { unfold get_stats_overview. fold answers. fold n. fold c.
    rewrite Hacc. simpl. rewrite get_stats_by_week_value. simpl. reflexivity. }
  simpl. split_and!; try done.
  - intros Hn Hc2. rewrite Hn, Hc2. split; reflexivity.
  - rewrite <- list_fmap_compose.
    pose proof (select_by_week_sorted strftime_YW answers) as Hs.
    unfold weeks_ascending in Hs. fold answers.
    induction Hs as [|g rest Hrest IH Hg]; [constructor|].
    simpl. constructor; [done|]. by apply Forall_fmap.
  - intros b Hb. apply list_elem_of_fmap in Hb as (g & -> & Hg). simpl.
    destruct (group_counts answers g Hg) as (H1 & H2 & H3 & H4).
    split_and!; try done.
    rewrite H2. apply count_flags_sum.
  - intros a Ha. destruct (group_covers answers a Ha) as (g & Hg & Hw).
    eexists. split; [by apply list_elem_of_fmap_2|]. done.
Qed.

End OverviewFacts.

(** ** The theorems on the sample database *)




(** [delete_note_cascade] on the sample database: deleting note 1 keeps the
    answer to the question of note 2. *)
Lemma delete_note_cascade_witness :
  answer_3 ∈ user_answers sample_db
  ∧ answer_3 ∈ user_answers (delete_note sample_db 1)
  ∧ length (user_answers (delete_note sample_db 1)) = 1%nat
  ∧ length (questions (delete_note sample_db 1)) = 1%nat.
Proof.
  assert (Hin : answer_3 ∈ user_answers sample_db).
  { do 2 apply list_elem_of_further. apply list_elem_of_here. }
  split; [exact Hin|].
  destruct (delete_note_cascade sample_db 1)
    as (_ & _ & _ & _ & _ & _ & _ & Hkeep & _).
  split; [|split; reflexivity].
  apply Hkeep; [exact Hin|].
  intros r Hr Hid Hn.
  apply elem_of_cons in Hr as [-> | Hr]; [discriminate Hid|].
  apply elem_of_cons in Hr as [-> | Hr]; [discriminate Hn|].
  by apply elem_of_nil in Hr.
Defined.

(** [stats_overview_correct] on three answers of which two are correct. *)
Lemma stats_overview_correct_witness :
  ∃ s, get_stats_overview sample_week sample_db = Ok s
    ∧ overall_accuracy s = PyFloat (PrimFloat.div 2%float 3%float)
    ∧ week <$> by_week s = [ustr "2025-01"; ustr "2025-02"].
Proof.
  destruct (stats_overview_correct sample_week sample_db)
    as (s & Hs & _ & _ & _ & H23 & _).
  exists s. split; [exact Hs|]. split.
  - apply H23; reflexivity.
  - injection Hs as <-. reflexivity.
Defined.


(* ===================================================================== *)
(** * Further properties *)
(* ===================================================================== *)

(** ** The tag list of a query *)







(** ** Answers that start with a letter *)

Lemma letter_not_space (c : N) :
  (0x41 ≤ c ≤ 0x5A ∨ 0x61 ≤ c ≤ 0x7A) -> isspace c = false.
Proof.
  intros Hc. unfold isspace.
  rewrite !orb_false_iff, !andb_false_iff, !N.eqb_neq, !N.leb_gt. lia.
Qed.

Lemma ascii_upper_letter (c : N) :
  (0x41 ≤ c ≤ 0x5A ∨ 0x61 ≤ c ≤ 0x7A) -> 0x41 ≤ ascii_upper c ≤ 0x5A.
Proof.
  intros Hc. unfold ascii_upper.
  destruct ((0x61 <=? c) && (c <=? 0x7A)) eqn:E.
  - apply andb_true_iff in E as [E1%N.leb_le E2%N.leb_le]. lia.
  - apply andb_false_iff in E as [E%N.leb_gt | E%N.leb_gt]; lia.
Qed.

Section LetterFacts.

Variable unicode_upper : N -> pystr.

(** X2: an answer whose first character is an ASCII letter is graded by
    that letter alone, whatever its case and whatever follows it (white
    space before it does not count either): the key is the capital letter,
    and two such answers are graded equal exactly when their first letters
    agree up to case. *)
Theorem normalize_choice_letter (blank : pystr) (c : N) (rest : pystr) :
  Forall (fun b => isspace b = true) blank ->
  (0x41 ≤ c ≤ 0x5A ∨ 0x61 ≤ c ≤ 0x7A) ->
  normalize_choice unicode_upper (blank ++ c :: rest) = [ascii_upper c]
  ∧ ∀ blank' c' rest',
      Forall (fun b => isspace b = true) blank' ->
      (0x41 ≤ c' ≤ 0x5A ∨ 0x61 ≤ c' ≤ 0x7A) ->
      grade_single_choice unicode_upper (blank ++ c :: rest) (blank' ++ c' :: rest')
      = bool_decide (ascii_upper c = ascii_upper c').
Proof.
  assert (Hkey : ∀ blank c rest,
            Forall (fun b => isspace b = true) blank ->
            (0x41 ≤ c ≤ 0x5A ∨ 0x61 ≤ c ≤ 0x7A) ->
            normalize_choice unicode_upper (blank ++ c :: rest) = [ascii_upper c]).
  { clear. intros blank c rest Hblank Hc.
    pose proof (letter_not_space c Hc) as Hsp.
    unfold normalize_choice, strip. rewrite lstrip_with_app_all by done.
    rewrite (lstrip_with_fix isspace (c :: rest)) by (by intros ? ? [= <- _]).
    destruct (rstrip_with_keeps_head isspace c rest Hsp) as (r' & ->).
    change (negb (nonempty (c :: r'))) with false. cbv iota.
    rewrite upper_take_1, upper_char_ascii by lia.
    rewrite str_le_A_Z_single. unfold is_letter_AZ.
    pose proof (ascii_upper_letter c Hc) as [H1%N.leb_le H2%N.leb_le].
    by rewrite H1, H2. }
  intros Hblank Hc. split; [by apply Hkey|].
  intros blank' c' rest' Hblank' Hc'.
  unfold grade_single_choice. rewrite !normalize_choice_strip, !Hkey by done.
  apply bool_decide_ext. split; [by intros [= ->] | by intros ->].
Qed.

End LetterFacts.

(** [normalize_choice_letter] on the answer ["  b) because"]. *)
Lemma normalize_choice_letter_witness :
  normalize_choice (fun c => [c]) (ustr "  b) because") = ustr "B"
  ∧ grade_single_choice (fun c => [c]) (ustr "  b) because") (ustr "B. yes") = true.
Proof.
  assert (Hb : Forall (fun b => isspace b = true) (ustr "  "))
    by (repeat constructor).
  assert (Hc : 0x41 ≤ 0x62 ≤ 0x5A ∨ 0x61 ≤ 0x62 ≤ 0x7A) by lia.
  destruct (normalize_choice_letter (fun c => [c]) (ustr "  ") 0x62
              (ustr ") because") Hb Hc) as [H1 H2].
  split; [exact H1|].
  apply (H2 [] 0x42 (ustr ". yes")); [constructor | lia].
Defined.

(** ** The clients, further *)

Section ClientMoreFacts.

Variable json_loads : pystr -> option json.
Variable float_of_str : pystr -> option float.
Variable str_of_object : json -> pystr.


End ClientMoreFacts.

Lemma head_filter_Some {A} (f : A -> bool) (l : list A) (x : A) :
  head (List.filter f l) = Some x -> x ∈ l ∧ f x = true.
Proof.
  intros H.
  assert (In x (List.filter f l)) as Hin.
  { destruct (List.filter f l); [done|]. injection H as ->. by left. }
  apply List.filter_In in Hin as [Hin Hf]. split; [by apply list_elem_of_In | done].
Qed.

Lemma head_filter_None {A} (f : A -> bool) (l : list A) :
  head (List.filter f l) = None ↔ ∀ x, x ∈ l -> f x = false.
Proof.
  split.
  - intros H x Hx. destruct (f x) eqn:Hf; [|done].
    assert (In x (List.filter f l)) as Hin
      by (apply List.filter_In; split; [by apply list_elem_of_In | done]).
    by destruct (List.filter f l).
  - intros H. destruct (List.filter f l) as [|x l'] eqn:E; [done|].
    assert (In x (List.filter f l)) as Hin by (rewrite E; by left).
    apply List.filter_In in Hin as [Hin Hf].
    rewrite (H x) in Hf; [done | by apply list_elem_of_In].
Qed.

(** X4: for a [dict] or a [list], [_extract_first_str] returns a string
    only if that string occurs in the object and is not empty, and returns
    [None] exactly when every string of the object is empty (or there is
    none); for anything that is neither a string nor a container it
    returns [None]. *)
Theorem extract_first_str_found (obj : json) :
  (∀ s, obj ≠ JStr s) ->
  (∀ s, _extract_first_str obj = Some s -> s ∈ strings_of obj ∧ s ≠ [])
  ∧ (_extract_first_str obj = None ↔ ∀ s, s ∈ strings_of obj -> s = [])
  ∧ ((∀ items, obj ≠ JArr items) -> (∀ fields, obj ≠ JObj fields) ->
     _extract_first_str obj = None).
Proof.
  intros Hobj. rewrite (extract_first_str_nonempty obj Hobj). split_and!.
  - intros s Hs. apply head_filter_Some in Hs as [Hin Hne].
    split; [done | by apply nonempty_true_iff].
  - rewrite head_filter_None. split.
    + intros H s Hs. specialize (H s Hs). by destruct s.
    + intros H s Hs. by rewrite (H s Hs).
  - intros Ha Ho. destruct obj; try done.
    + by destruct (Hobj s).
    + by destruct (Ha items).
    + by destruct (Ho fields).
Qed.

(** [extract_first_str_found] on a reply whose first string is empty. *)
Lemma extract_first_str_found_witness :
  _extract_first_str
    (JObj [(ustr "id", JStr []); (ustr "items", JArr [JInt 1; JStr (ustr "x")])])
  = Some (ustr "x")
  ∧ ustr "x" ∈ strings_of
      (JObj [(ustr "id", JStr []); (ustr "items", JArr [JInt 1; JStr (ustr "x")])]).
Proof.
  split; [reflexivity|].
  destruct (extract_first_str_found
              (JObj [(ustr "id", JStr []);
                     (ustr "items", JArr [JInt 1; JStr (ustr "x")])]))
    as (H & _); [done|].
  by destruct (H (ustr "x") eq_refl).
Defined.

(** X5: the questions [generate_questions_from_note] builds from a decoded
    array are no more than its elements, one for each element that is a
    mapping and in their order; the [options] of a question are never
    [None], [False], zero or an empty text or mapping: they are a truthy
    value or the empty list. *)
Theorem parse_questions_shape (items : list json) :
  (length (parse_questions items) ≤ length items)%nat
  ∧ length (parse_questions items)
    = length (List.filter (fun q => match q with JObj _ => true | _ => false end)
                items)
  ∧ (∀ q, q ∈ parse_questions items ->
          truthy (qd_options q) = true ∨ qd_options q = JArr [])
  ∧ (∀ q, q ∈ parse_questions items ->
          ∃ fields, JObj fields ∈ items ∧ q = project_question fields).
Proof.
  split_and!.
  - induction items as [|q r IH]; [done|]. destruct q; simpl; lia.
  - induction items as [|q r IH]; [done|]. destruct q; simpl; by rewrite ?IH.
  - intros q Hq. induction items as [|x r IH]; [by apply elem_of_nil in Hq|].
    destruct x; simpl in Hq; try (by apply IH).
    apply elem_of_cons in Hq as [-> | Hq]; [|by apply IH].
    unfold project_question, py_or. simpl.
    destruct (truthy (default (JArr []) (lookup_field (ustr "options") fields)))
      eqn:Ht; [by left | by right].
  - intros q Hq. induction items as [|x r IH]; [by apply elem_of_nil in Hq|].
    assert (Hrec : q ∈ parse_questions r ->
                   ∃ fields, JObj fields ∈ x :: r ∧ q = project_question fields).
    { intros H. destruct (IH H) as (f & Hf & ->). exists f. split; [by right | done]. }
    destruct x; simpl in Hq; try (by apply Hrec).
    apply elem_of_cons in Hq as [-> | Hq]; [|by apply Hrec].
    exists fields. split; [by left | done].
Qed.

(** ** Ids and contents in every database the operations build *)




Section ReachableFacts.

Variable json_dumps : json -> pystr.

(** The loop of [insert_question_batch] touches the questions only. *)
Lemma insert_loop_frame (clock : Z -> timestamp) (nid : Z) (qs : list draft) :
  ∀ (d : db) (existing : gset pystr),
    let d' := insert_loop json_dumps clock nid qs d existing in
    notes d' = notes d ∧ user_answers d' = user_answers d
    ∧ seq_notes d' = seq_notes d ∧ seq_user_answers d' = seq_user_answers d.
Proof.
  induction qs as [|q qs IH]; intros d existing; [done|]. simpl.
  destruct (negb (nonempty (default [] (d_content q)))); [apply IH|].
  case_bool_decide; [apply IH|].
  destruct (IH (add_question json_dumps clock d nid q (default [] (d_content q)))
              ({[default [] (d_content q)]} ∪ existing)) as (H1 & H2 & H3 & H4).
  by split_and!.
Qed.





End ReachableFacts.


(** ** The queries, further *)

Lemma str_max_le (a b : pystr) :
  str_le a (str_max a b) = true ∧ str_le b (str_max a b) = true.
Proof.
  unfold str_max, str_lt, str_le.
  destruct (str_compare a b) eqn:E; rewrite ?E, ?str_compare_refl; try done.
  - apply str_compare_eq in E as ->. by rewrite str_compare_refl.
  - rewrite (str_compare_antisym a b), E. done.
Qed.

Lemma last_timestamp_max (ts : list pystr) :
  ts ≠ [] ->
  foldr str_max [] ts ∈ ts ∧ ∀ t, t ∈ ts -> str_le t (foldr str_max [] ts) = true.
Proof.
  induction ts as [|a ts IH]; [done|]. intros _. simpl.
  destruct ts as [|b ts'].
  { simpl. assert (str_max a [] = a) as -> by (by destruct a).
    split; [by left|]. intros t ->%list_elem_of_singleton. apply str_le_refl. }
  destruct IH as [Hin Hmax]; [done|]. split.
  - unfold str_max at 1. destruct (str_lt a _); [by right | by left].
  - intros t [-> | Ht]%elem_of_cons; [apply str_max_le|].
    eapply str_le_trans; [by apply Hmax | apply str_max_le].
Qed.

Section QueryMoreFacts.

Variable json_loads : pystr -> option json.

Lemma converted_ids (rows : list question_row) (out : list question) :
  Forall2 (fun row x => _row_to_question_dict json_loads row = Ok x) rows out ->
  id <$> out = q_id <$> rows.
Proof.
  induction 1 as [|row x rows out Hx _ IH]; [done|].
  rewrite !fmap_cons, IH. f_equal.
  by destruct (row_to_question_dict_fields json_loads row x Hx) as [-> _].
Qed.

(** X7: whatever [get_wrong_questions] returns, every question in it is a
    stored question with at least one answer marked wrong; it comes after
    every question whose latest wrong answer is later than its own (latest
    wrong answer first); no question is returned twice when the ids of the
    stored questions are distinct; and there are at most [limit] questions
    when [limit] is not negative. *)
Theorem get_wrong_questions_ordered (d : db) (limit : Z) (out : list question) :
  get_wrong_questions json_loads d limit (Ok out) ->
  ∃ rows,
    Forall2 (fun row x => _row_to_question_dict json_loads row = Ok x) rows out
    ∧ id <$> out = q_id <$> rows
    ∧ (∀ row, row ∈ rows ->
         row ∈ questions d
         ∧ last_wrong d row ∈ wrong_times d row
         ∧ (∀ t, t ∈ wrong_times d row -> str_le t (last_wrong d row) = true)
         ∧ ∃ a, a ∈ user_answers d ∧ a_question_id a = q_id row
                ∧ a_is_correct a = false
                ∧ a_created_at a = last_wrong d row)
    ∧ StronglySorted
        (fun r1 r2 => str_le (last_wrong d r2) (last_wrong d r1) = true) rows
    ∧ (NoDup (q_id <$> questions d) -> NoDup (id <$> out))
    ∧ ((0 ≤ limit)%Z -> (Z.of_nat (length out) ≤ limit)%Z).
Proof.
  intros (all & Hperm & Hsorted & Hout).
  symmetry in Hout. apply mapM_result_Forall2 in Hout.
  exists (sql_limit limit all).
  assert (Hsub : sql_limit limit all `sublist_of` all) by apply sql_limit_sublist.
  assert (Hstrong : StronglySorted
            (fun r1 r2 => str_le (last_wrong d r2) (last_wrong d r1) = true) all).
  { apply Sorted_StronglySorted; [|done].
    intros r1 r2 r3 H12 H23. by eapply str_le_trans. }
  split_and!.
  - done.
  - by apply converted_ids.
  - intros row Hrow. eapply elem_of_sublist in Hrow; [|exact Hsub].
    rewrite Hperm in Hrow. apply list_elem_of_In, List.filter_In in Hrow as [Hin Hw].
    apply list_elem_of_In in Hin. apply nonempty_true_iff in Hw.
    destruct (last_timestamp_max (wrong_times d row) Hw) as [Hlast Hmax].
    fold (last_wrong d row) in Hlast, Hmax. split_and!; try done.
    unfold wrong_times in Hlast at 1.
    apply list_elem_of_fmap in Hlast as (a & Ha & Hin').
    apply list_elem_of_filter in Hin' as [[Hq Hc] Hin'].
    by exists a.
  - unfold sql_limit. destruct (limit <? 0)%Z; [done|].
    clear -Hstrong. revert all Hstrong.
    induction (Z.to_nat limit) as [|n IH]; intros all Hs; [constructor|].
    destruct Hs as [|r l Hl Hr]; [constructor|]. simpl. constructor; [by apply IH|].
    by apply Forall_take.
  - intros Hnd. rewrite (converted_ids _ _ Hout).
    eapply sublist_NoDup; [|apply fmap_sublist; exact Hsub].
    rewrite Hperm.
    eapply sublist_NoDup; [exact Hnd|]. apply fmap_sublist.
    clear. induction (questions d) as [|r l IH]; [done|]. simpl.
    destruct (nonempty (wrong_times d r)); [by constructor | by constructor].
  - intros Hl. rewrite <- (Forall2_length _ _ _ Hout). by apply sql_limit_length.
Qed.

(** X8: [get_questions_by_knowledge] never returns a question twice, nor
    [get_question_by_id] anything but the question asked for: when the ids
    of the stored questions are distinct, the questions of one result have
    distinct ids, and a question found by id has that id. *)
Theorem query_results_distinct (d : db) (tags : list pystr) (limit : Z)
  (nid : option Z) (scope : option pystr) (qt : option pystr) (out : list question) :
  NoDup (q_id <$> questions d) ->
  get_questions_by_knowledge json_loads d tags limit nid scope qt (Ok out) ->
  NoDup (id <$> out)
  ∧ ∀ qid x, get_question_by_id json_loads d qid = Ok (Some x) -> id x = qid.
Proof.
  intros Hnd (resolved & shuffled & _ & Hperm & Hout). split.
  - symmetry in Hout. apply mapM_result_Forall2 in Hout.
    rewrite (converted_ids _ _ Hout).
    eapply sublist_NoDup; [|apply fmap_sublist, sql_limit_sublist].
    rewrite Hperm.
    eapply sublist_NoDup; [exact Hnd|]. apply fmap_sublist.
    clear. induction (questions d) as [|r l IH]; [done|]. simpl.
    destruct (matches resolved tags qt r); [by constructor | by constructor].
  - intros qid x. unfold get_question_by_id.
    destruct (filter (fun r => q_id r = qid) (questions d)) as [|row l] eqn:E; [done|].
    assert (row ∈ filter (fun r => q_id r = qid) (questions d)) as Hin
      by (rewrite E; by left).
    apply list_elem_of_filter in Hin as [Hid _].
    destruct (_row_to_question_dict json_loads row) as [y|] eqn:Ey; simpl; [|done].
    intros [= <-].
    by destruct (row_to_question_dict_fields json_loads row y Ey) as [-> _].
Qed.

End QueryMoreFacts.

(** [get_wrong_questions_ordered] on the sample database: question 1 has a
    wrong answer. *)
Lemma get_wrong_questions_ordered_witness :
  get_wrong_questions sample_loads sample_db 5 (Ok [question_1])
  ∧ (Z.of_nat (length [question_1]) ≤ 5)%Z.
Proof.
  assert (H : get_wrong_questions sample_loads sample_db 5 (Ok [question_1])).
  { exists (List.filter (fun row => nonempty (wrong_times sample_db row))
              (questions sample_db)).
    split_and!; [reflexivity | | reflexivity].
    vm_compute. repeat constructor. }
  split; [exact H|].
  destruct (get_wrong_questions_ordered sample_loads sample_db 5 [question_1] H)
    as (rows & _ & _ & _ & _ & _ & Hlen).
  apply Hlen. lia.
Defined.

(** [query_results_distinct] on the sample database. *)
Lemma query_results_distinct_witness :
  NoDup (q_id <$> questions sample_db)
  ∧ NoDup (id <$> [question_1; question_2]).
Proof.
  assert (Hnd : NoDup (q_id <$> questions sample_db)).
  { vm_compute. apply NoDup_cons. split; [|apply NoDup_singleton].
    intros Hin. apply list_elem_of_singleton in Hin. discriminate Hin. }
  split; [exact Hnd|].
  apply (query_results_distinct sample_loads sample_db [] (-1) None None None
           [question_1; question_2] Hnd).
  exists None, (questions sample_db).
  split_and!; [by apply resolve_unscoped | reflexivity | reflexivity].
Defined.

(** ** Deletion, further *)

(** X9: [delete_note] keeps the references intact: when every answer
    references a stored question and every question a stored note, the same
    holds after the deletion of any note. *)
Theorem delete_note_keeps_references (d : db) (n : Z) :
  answers_refer d -> questions_refer d ->
  answers_refer (delete_note d n) ∧ questions_refer (delete_note d n).
Proof.
  intros Ha Hq. split.
  - intros a Hin.
    change (user_answers (delete_note d n))
      with (user_answers (delete_answers_of_note d n)) in Hin.
    rewrite delete_answers_of_note_answers in Hin.
    apply list_elem_of_filter in Hin as [Hno Hin].
    destruct (Ha a Hin) as (r & Hr & Hid). exists r. split; [|done].
    change (r ∈ filter (fun r => q_note_id r ≠ n) (questions d)).
    apply list_elem_of_filter. split; [|done].
    intros Hn. apply Hno. apply Exists_exists. by exists r.
  - intros r Hr.
    change (r ∈ filter (fun r => q_note_id r ≠ n) (questions d)) in Hr.
    apply list_elem_of_filter in Hr as [Hn Hr].
    destruct (Hq r Hr) as (m & Hm & Hid). exists m. split; [|done].
    change (m ∈ filter (fun m => n_id m ≠ n) (notes d)).
    apply list_elem_of_filter. split; [congruence | done].
Qed.

(** [delete_note_keeps_references] on the sample database. *)
Lemma delete_note_keeps_references_witness :
  answers_refer sample_db ∧ questions_refer sample_db
  ∧ answers_refer (delete_note sample_db 1).
Proof.
  assert (Ha : answers_refer sample_db).
  { intros a Hin. vm_compute in Hin.
    repeat (apply elem_of_cons in Hin as [-> | Hin];
            [first
               [ solve [eexists; split; [apply list_elem_of_here | reflexivity]]
               | solve [eexists; split;
                          [apply list_elem_of_further; apply list_elem_of_here
                          | reflexivity]] ] |]).
    by apply elem_of_nil in Hin. }
  assert (Hq : questions_refer sample_db).
  { intros r Hin. vm_compute in Hin.
    repeat (apply elem_of_cons in Hin as [-> | Hin];
            [first
               [ solve [eexists; split; [apply list_elem_of_here | reflexivity]]
               | solve [eexists; split;
                          [apply list_elem_of_further; apply list_elem_of_here
                          | reflexivity]] ] |]).
    by apply elem_of_nil in Hin. }
  split; [exact Ha|]. split; [exact Hq|].
  exact (proj1 (delete_note_keeps_references sample_db 1 Ha Hq)).
Defined.

Lemma filter_filter_same {A} (P : A -> Prop) `{∀ x, Decision (P x)} (l : list A) :
  filter P (filter P l) = filter P l.
Proof.
  apply filter_all. apply Forall_forall. intros x Hx.
  by apply list_elem_of_filter in Hx as [? _].
Qed.

(** X10: deleting a note twice is deleting it once, and deleting a note
    that has no question leaves all the answers in place. *)
Theorem delete_note_idempotent (d : db) (n : Z) :
  delete_note (delete_note d n) n = delete_note d n
  ∧ ((∀ r, r ∈ questions d -> q_note_id r ≠ n) ->
     user_answers (delete_note d n) = user_answers d
     ∧ questions (delete_note d n) = questions d).
Proof.
  assert (Hgone : ∀ d0, (∀ r, r ∈ questions d0 -> q_note_id r ≠ n) ->
            user_answers (delete_note d0 n) = user_answers d0
            ∧ questions (delete_note d0 n) = questions d0).
  { intros d0 Hd0. split.
    - change (user_answers (delete_note d0 n))
        with (user_answers (delete_answers_of_note d0 n)).
      rewrite delete_answers_of_note_answers. apply filter_all.
      apply Forall_forall. intros a _ Hex.
      apply Exists_exists in Hex as (r & Hr & Hn & _). by apply (Hd0 r).
    - change (filter (fun r => q_note_id r ≠ n) (questions d0) = questions d0).
      apply filter_all. apply Forall_forall. intros r Hr. by apply Hd0. }
  split; [|apply Hgone].
  destruct (Hgone (delete_note d n)) as [Ha Hq].
  { intros r Hr. change (r ∈ filter (fun r => q_note_id r ≠ n) (questions d)) in Hr.
    by apply list_elem_of_filter in Hr as [? _]. }
  assert (Hn : notes (delete_note (delete_note d n) n) = notes (delete_note d n)).
  { change (filter (fun m => n_id m ≠ n) (filter (fun m => n_id m ≠ n) (notes d))
            = filter (fun m => n_id m ≠ n) (notes d)).
    apply filter_filter_same. }
  destruct (delete_note (delete_note d n) n) as [n2 q2 a2 s1 s2 s3] eqn:E2.
  assert (Hs : (s1, s2, s3) = (seq_notes d, seq_questions d, seq_user_answers d)).
  { pose proof (f_equal seq_notes E2) as E1.
    pose proof (f_equal seq_questions E2) as E3.
    pose proof (f_equal seq_user_answers E2) as E4.
    simpl in E1, E3, E4. congruence. }
  simpl in Ha, Hq, Hn. injection Hs as -> -> ->. subst.
  reflexivity.
Qed.

(** ** An upload and its deletion *)

Section UploadFacts.

Variable json_dumps : json -> pystr.

(** X11: deleting a note right after its upload undoes the upload: in a
    database with distinct, handed-out ids whose answers reference stored
    questions and whose questions reference stored notes, [insert_note]
    followed by [insert_question_batch] for the new note and [delete_note]
    of it leaves the three tables as they were (only the id counters have
    moved on). *)
Theorem upload_then_delete (now : timestamp) (clock : Z -> timestamp) (d : db)
  (title path : pystr) (qs : list draft) :
  well_formed d -> questions_refer d -> answers_refer d ->
  let uploaded := insert_note now d title path in
  let d2 := insert_question_batch json_dumps clock uploaded.1 uploaded.2 qs in
  let d3 := delete_note d2 uploaded.2 in
  notes d3 = notes d ∧ questions d3 = questions d
  ∧ user_answers d3 = user_answers d
  ∧ (seq_notes d < seq_notes d3)%Z ∧ (seq_questions d ≤ seq_questions d3)%Z.
Proof.
  intros ([_ Hnb] & [_ Hqb] & _) Hqr Har uploaded d2 d3.
  set (nid := (seq_notes d + 1)%Z).
  assert (Hnid : uploaded.2 = nid) by reflexivity.
  destruct (insert_loop_frame json_dumps clock nid qs uploaded.1
              (existing_contents uploaded.1)) as (F1 & F2 & F3 & F4).
  destruct (insert_loop_rows json_dumps clock nid qs uploaded.1
              (existing_contents uploaded.1)) as (new & H1 & H2 & H3 & _).
  fold (insert_question_batch json_dumps clock uploaded.1 nid qs) in F1, F2, F3, F4, H1, H2, H3.
  change (insert_question_batch json_dumps clock uploaded.1 nid qs) with d2
    in F1, F2, F3, F4, H1, H2, H3.
  change (questions uploaded.1) with (questions d) in H1.
  change (seq_questions uploaded.1) with (seq_questions d) in H2, H3.
  change (user_answers uploaded.1) with (user_answers d) in F2.
  rewrite Forall_forall in H3.
  assert (Hold : ∀ r, r ∈ questions d -> q_note_id r ≠ nid).
  { intros r Hr Heq. destruct (Hqr r Hr) as (m & Hm & Hid).
    assert (n_id m ≤ seq_notes d)%Z by (apply Hnb; by apply list_elem_of_fmap_2).
    unfold nid in Heq. lia. }
  assert (Hnew : ∀ r, r ∈ new -> q_note_id r = nid ∧ (seq_questions d < q_id r)%Z).
  { intros r Hr. destruct (H3 r Hr) as ([Hlt _] & q & c & _ & _ & _ & Heq).
    split; [by rewrite Heq | done]. }
  split_and!.
  - change (filter (fun m => n_id m ≠ nid) (notes d2) = notes d). rewrite F1.
    change (notes uploaded.1) with (notes d ++ [ {| n_id := nid; n_title := title;
                                                    n_path := path;
                                                    n_created_at := now |} ]).
    rewrite filter_app, filter_cons_False, filter_nil, app_nil_r by (simpl; tauto).
    apply filter_all. apply Forall_forall. intros m Hm Heq.
    assert (n_id m ≤ seq_notes d)%Z by (apply Hnb; by apply list_elem_of_fmap_2).
    unfold nid in Heq. lia.
  - change (filter (fun r => q_note_id r ≠ nid) (questions d2) = questions d).
    rewrite H1, filter_app.
    rewrite (filter_all _ (questions d)) by (apply Forall_forall; exact Hold).
    rewrite (filter_none _ new); [apply app_nil_r|].
    intros r Hr Hne. by destruct (Hnew r Hr).
  - change (user_answers (delete_answers_of_note d2 nid) = user_answers d).
    rewrite delete_answers_of_note_answers, F2.
    apply filter_all. apply Forall_forall. intros a Ha Hex.
    apply Exists_exists in Hex as (r & Hr & Hn & Hid).
    rewrite H1 in Hr. apply elem_of_app in Hr as [Hr | Hr]; [by apply (Hold r)|].
    destruct (Hnew r Hr) as [_ Hlt].
    destruct (Har a Ha) as (r0 & Hr0 & Hid0).
    assert (q_id r0 ≤ seq_questions d)%Z by (apply Hqb; by apply list_elem_of_fmap_2).
    lia.
  - change (seq_notes d3) with (seq_notes d2). rewrite F3. simpl. lia.
  - exact H2.
Qed.




End UploadFacts.

Section LookupFacts.

Variable json_dumps : json -> pystr.
Variable json_loads : pystr -> option json.

(** X13: a lookup by id is not disturbed by an upload or a deletion
    elsewhere: when no stored question has an id beyond the last one handed
    out, [get_question_by_id] for an id handed out so far answers after an
    [insert_question_batch] what it answered before; and when the ids are
    distinct, after [delete_note] a question of the deleted note is no
    longer found while a question of another note is found as before. *)
Theorem get_question_by_id_stable (clock : Z -> timestamp) (d : db) (nid n : Z)
  (qs : list draft) :
  well_formed d ->
  (∀ qid, (qid ≤ seq_questions d)%Z ->
     get_question_by_id json_loads (insert_question_batch json_dumps clock d nid qs) qid
     = get_question_by_id json_loads d qid)
  ∧ (∀ r, r ∈ questions d ->
       get_question_by_id json_loads (delete_note d n) (q_id r)
       = if decide (q_note_id r = n) then Ok None
         else get_question_by_id json_loads d (q_id r)).
Proof.
  intros (_ & [Hnd Hb] & _). split.
  - intros qid Hqid. unfold get_question_by_id.
    destruct (insert_loop_rows json_dumps clock nid qs d (existing_contents d))
      as (new & H1 & _ & H3 & _).
    fold (insert_question_batch json_dumps clock d nid qs) in H1, H3.
    rewrite Forall_forall in H3.
    rewrite H1, filter_app.
    rewrite (filter_none _ new); [by rewrite app_nil_r|].
    intros r Hr Heq. destruct (H3 r Hr) as [[Hlt _] _]. lia.
  - intros r Hr. unfold get_question_by_id.
    change (questions (delete_note d n))
      with (filter (fun r => q_note_id r ≠ n) (questions d)).
    rewrite list_filter_filter.
    rewrite (filter_unique_key q_id (questions d) r Hnd Hr).
    assert (filter (fun x => q_id x = q_id r ∧ q_note_id x ≠ n) (questions d)
            = filter (fun x => q_note_id x ≠ n)
                (filter (fun x => q_id x = q_id r) (questions d))) as ->.
    { rewrite list_filter_filter. apply list_filter_iff. tauto. }
    rewrite (filter_unique_key q_id (questions d) r Hnd Hr).
    rewrite filter_cons, filter_nil.
    destruct (decide (q_note_id r = n)) as [Heq | Hne].
    + by rewrite decide_False by tauto.
    + by rewrite decide_True.
Qed.

End LookupFacts.

(** ** The theorems above on the sample database *)

Lemma ids_ok_decide (ids : list Z) (seq : Z) :
  bool_decide (NoDup ids ∧ Forall (fun i => (i ≤ seq)%Z) ids) = true ->
  ids_ok ids seq.
Proof.
  intros [Hnd Hall]%bool_decide_eq_true. split; [done|].
  by apply Forall_forall.
Qed.

Lemma well_formed_sample_db : well_formed sample_db.
Proof. split_and!; by apply ids_ok_decide. Qed.

Lemma references_sample_db : answers_refer sample_db ∧ questions_refer sample_db.
Proof.
  split.
  - intros a Hin. vm_compute in Hin.
    repeat (apply elem_of_cons in Hin as [-> | Hin];
            [first
               [ solve [eexists; split; [apply list_elem_of_here | reflexivity]]
               | solve [eexists; split;
                          [apply list_elem_of_further; apply list_elem_of_here
                          | reflexivity]] ] |]).
    by apply elem_of_nil in Hin.
  - intros r Hin. vm_compute in Hin.
    repeat (apply elem_of_cons in Hin as [-> | Hin];
            [first
               [ solve [eexists; split; [apply list_elem_of_here | reflexivity]]
               | solve [eexists; split;
                          [apply list_elem_of_further; apply list_elem_of_here
                          | reflexivity]] ] |]).
    by apply elem_of_nil in Hin.
Qed.

(** [upload_then_delete] on the sample database and an upload of two drafts. *)
Lemma upload_then_delete_witness :
  let uploaded := insert_note (ustr "2025-03-01 12:00:00") sample_db
                    (ustr "note 3") (ustr "uploads/n3.txt") in
  let d2 := insert_question_batch sample_dumps sample_clock uploaded.1 uploaded.2
              [draft_new; draft_choice] in
  length (questions d2) = 3%nat
  ∧ questions (delete_note d2 uploaded.2) = questions sample_db
  ∧ notes (delete_note d2 uploaded.2) = notes sample_db.
Proof.
  intros uploaded d2. split; [reflexivity|].
  destruct references_sample_db as [Ha Hq].
  destruct (upload_then_delete sample_dumps
              (ustr "2025-03-01 12:00:00") sample_clock
              sample_db (ustr "note 3") (ustr "uploads/n3.txt")
              [draft_new; draft_choice] well_formed_sample_db Hq Ha)
    as (H1 & H2 & _).
  split; [exact H2 | exact H1].
Defined.

(** [get_question_by_id_stable] on the sample database: after the deletion
    of note 1 its question is gone. *)
Lemma get_question_by_id_stable_witness :
  row_1 ∈ questions sample_db
  ∧ get_question_by_id sample_loads (delete_note sample_db 1) (q_id row_1) = Ok None.
Proof.
  assert (Hin : row_1 ∈ questions sample_db) by apply list_elem_of_here.
  split; [exact Hin|].
  destruct (get_question_by_id_stable sample_dumps sample_loads sample_clock sample_db
              1 1 [] well_formed_sample_db) as [_ H].
  exact (H row_1 Hin).
Defined.

(** ** Statistics, further *)

Section PartitionFacts.

Variable strftime_YW : timestamp -> pystr.

Lemma group_insert_sums (w : pystr) (flag : bool) (groups : list week_group) :
  foldr (fun g sum => (g_total g + sum)%Z) 0%Z (group_insert w flag groups)
  = (foldr (fun g sum => (g_total g + sum)%Z) 0%Z groups + 1)%Z
  ∧ foldr (fun g sum => (g_correct g + sum)%Z) 0%Z (group_insert w flag groups)
    = (foldr (fun g sum => (g_correct g + sum)%Z) 0%Z groups + Z.b2z flag)%Z.
Proof.
  induction groups as [|g rest [IH1 IH2]]; simpl; [split; lia|].
  destruct (str_compare w (g_week g)); simpl; [split; lia | split; lia |].
  rewrite IH1, IH2. split; lia.
Qed.

Lemma select_by_week_sums (answers : list answer_row) :
  foldr (fun g sum => (g_total g + sum)%Z) 0%Z (select_by_week strftime_YW answers)
  = Z.of_nat (length answers)
  ∧ foldr (fun g sum => (g_correct g + sum)%Z) 0%Z
      (select_by_week strftime_YW answers)
    = Z.of_nat (length (filter (fun a => a_is_correct a = true) answers)).
Proof.
  induction answers as [|a answers [IH1 IH2]]; [done|]. simpl.
  destruct (group_insert_sums (strftime_YW (a_created_at a)) (a_is_correct a)
              (select_by_week strftime_YW answers)) as [-> ->].
  rewrite IH1, IH2, filter_cons. split; [lia|].
  destruct (decide (a_is_correct a = true)) as [Hc | Hc].
  - rewrite Hc. simpl. lia.
  - apply not_true_is_false in Hc. rewrite Hc. simpl. lia.
Qed.

Lemma get_stats_overview_value (d : db) :
  ∃ acc, get_stats_overview strftime_YW d
  = Ok {| total_answers := Z.of_nat (length (user_answers d));
          correct_answers :=
            Z.of_nat (length (filter (fun a => a_is_correct a = true)
                                (user_answers d)));
          overall_accuracy := acc;
          by_week :=
            (fun g => {| week := g_week g; total := g_total g;
                         correct := g_correct g;
                         accuracy := PyFloat (quotient (g_correct g) (g_total g)) |})
              <$> select_by_week strftime_YW (user_answers d) |}.
Proof.
  unfold get_stats_overview.
  pose proof (length_filter (fun a => a_is_correct a = true) (user_answers d)) as Hle.
  unfold ratio_or_zero.
  destruct (Z.of_nat (length (user_answers d)) =? 0)%Z eqn:E.
  - simpl. rewrite get_stats_by_week_value. simpl. by eexists.
  - apply Z.eqb_neq in E. rewrite int_truediv_fraction by lia. simpl.
    rewrite get_stats_by_week_value. simpl. by eexists.
Qed.

(** X14: the weekly buckets of [get_stats_overview] split the answers:
    their totals add up to [total_answers] and their correct counts to
    [correct_answers], so no answer is counted twice or left out; and no
    bucket reports more correct answers than answers. *)
Theorem stats_by_week_partition (d : db) :
  ∃ s, get_stats_overview strftime_YW d = Ok s
    ∧ foldr (fun b sum => (total b + sum)%Z) 0%Z (by_week s) = total_answers s
    ∧ foldr (fun b sum => (correct b + sum)%Z) 0%Z (by_week s) = correct_answers s
    ∧ (correct_answers s ≤ total_answers s)%Z
    ∧ ∀ b, b ∈ by_week s -> (0 ≤ correct b ≤ total b)%Z.
Proof.
  destruct (get_stats_overview_value d) as (acc & Hs).
  eexists. split; [exact Hs|]. simpl.
  destruct (select_by_week_sums (user_answers d)) as [H1 H2].
  split_and!.
  - rewrite <- H1. clear.
    induction (select_by_week strftime_YW (user_answers d)) as [|g l IH]; [done|].
    simpl. by rewrite <- IH.
  - rewrite <- H2. clear.
    induction (select_by_week strftime_YW (user_answers d)) as [|g l IH]; [done|].
    simpl. by rewrite <- IH.
  - pose proof (length_filter (fun a => a_is_correct a = true) (user_answers d)). lia.
  - intros b Hb. apply list_elem_of_fmap in Hb as (g & -> & Hg). simpl.
    by destruct (group_counts strftime_YW (user_answers d) g Hg) as (_ & _ & _ & ?).
Qed.

End PartitionFacts.

(** ** A wrong answer and the review list *)

Section ReviewFacts.

Variable json_loads : pystr -> option json.

(** X15: a wrong answer puts its question on the review list: after
    [insert_answer] with [is_correct] false for a stored question, every
    result of [get_wrong_questions] without a bound ([limit] negative)
    holds that question, and the database differs by the one new answer
    only. *)
Theorem wrong_answer_is_listed (now : timestamp) (d : db) (row : question_row)
  (ua : sql_text) (limit : Z) (out : list question) :
  row ∈ questions d ->
  (limit < 0)%Z ->
  get_wrong_questions json_loads
    (insert_answer now d (q_id row) ua false) limit (Ok out) ->
  (∃ x, x ∈ out ∧ _row_to_question_dict json_loads row = Ok x ∧ id x = q_id row)
  ∧ questions (insert_answer now d (q_id row) ua false) = questions d
  ∧ notes (insert_answer now d (q_id row) ua false) = notes d
  ∧ ∃ a, user_answers (insert_answer now d (q_id row) ua false)
         = user_answers d ++ [a]
         ∧ a_question_id a = q_id row ∧ a_user_answer a = ua
         ∧ a_is_correct a = false ∧ a_created_at a = now.
Proof.
  intros Hrow Hlimit (rows & Hperm & _ & Hout).
  split; [|split_and!; try done; by eexists].
  symmetry in Hout. apply mapM_result_Forall2 in Hout.
  rewrite sql_limit_all in Hout by (by left).
  assert (Hin : row ∈ rows).
  { rewrite Hperm. apply list_elem_of_In, List.filter_In.
    split; [by apply list_elem_of_In|].
    apply nonempty_true_iff. unfold wrong_times. simpl.
    rewrite filter_app, fmap_app, filter_cons_True by done.
    intros Hnil. by apply app_eq_nil in Hnil as [_ ?]. }
  apply list_elem_of_lookup in Hin as (i & Hi).
  destruct (Forall2_lookup_l _ _ _ _ _ Hout Hi) as (x & Hx & Hconv).
  exists x. split_and!; [by eapply list_elem_of_lookup_2 | done |].
  by destruct (row_to_question_dict_fields json_loads row x Hconv) as [-> _].
Qed.

End ReviewFacts.

(** [wrong_answer_is_listed] on the sample database: a wrong answer to
    question 2. *)
Lemma wrong_answer_is_listed_witness :
  ∃ x, x ∈ [question_2; question_1] ∧ id x = 2%Z.
Proof.
  assert (Hrow : question_row_of sample_dumps 2 2 (sample_clock 2) draft_short
                   (ustr "Q2") ∈ questions sample_db).
  { apply list_elem_of_further. apply list_elem_of_here. }
  destruct (wrong_answer_is_listed sample_loads (ustr "2025-02-04 08:00:00")
              sample_db _ (Some (ustr "no idea")) (-1) [question_2; question_1]
              Hrow ltac:(lia)) as ((x & Hx & _ & Hid) & _).
  - exists (reverse (List.filter
              (fun row => nonempty
                 (wrong_times (insert_answer (ustr "2025-02-04 08:00:00") sample_db 2
                                 (Some (ustr "no idea")) false) row))
              (questions sample_db))).
    split_and!; [apply reverse_Permutation | | reflexivity].
    vm_compute. repeat constructor.
  - by exists x.
Defined.

(** ** The submission of an answer *)

Section SubmitFacts.

Variable json_loads : pystr -> option json.
Variable float_of_str : pystr -> option float.
Variable str_of_object : json -> pystr.
Variable unicode_upper : N -> pystr.



(** X17: how [api_submit_answer] grades a stored question. A question that
    is not a short answer is graded by [normalize_choice] against its
    stored answer, with score 0 and no comment. A short answer is correct
    exactly when the score of [score_answer] is at least 0.6; so without a
    credential, or when the scoring call fails, it is recorded as wrong,
    with score 0 and the fixed message. *)
Theorem api_submit_answer_grading (api_key : pystr) (t : transport) (now : timestamp)
  (d : db) (data : submission) (qid : Z) (q : question) :
  question_id data = Some qid ->
  get_question_by_id json_loads d qid = Ok (Some q) ->
  let r := api_submit_answer json_loads float_of_str str_of_object unicode_upper
             api_key t now d data in
  (q_type q ≠ Some (ustr "short_answer") ->
     let flag := grade_single_choice unicode_upper (default [] (user_answer data))
                   (str_of_text (answer q)) in
     r = (insert_answer now d qid (user_answer data) flag,
          Ok (Graded flag 0 [] (answer q) (analysis q) (q_type q))))
  ∧ (q_type q = Some (ustr "short_answer") ->
     (∃ s c, score_answer json_loads float_of_str str_of_object api_key t = Ok (s, c)
        ∧ r.1 = insert_answer now d qid (user_answer data)
                  (PrimFloat.leb 0.6%float s))
     ∧ (nonempty api_key = false ->
        r = (insert_answer now d qid (user_answer data) false,
             Ok (Graded false 0 msg_no_api_key (answer q) (analysis q) (q_type q))))
     ∧ (nonempty api_key = true -> ∀ e, post_json t = Raise e ->
        r = (insert_answer now d qid (user_answer data) false,
             Ok (Graded false 0 msg_failed (answer q) (analysis q) (q_type q))))).
Proof.
  intros Hq Hg r. unfold r, api_submit_answer, grade. rewrite Hq, Hg. split.
  - intros Hne. by rewrite decide_False.
  - intros He. rewrite decide_True by done. split_and!.
    + destruct (score_answer_in_unit json_loads float_of_str str_of_object api_key t)
        as (s & c & Hs & _).
      exists s, c. split; [done|]. by rewrite Hs.
    + intros Hk. unfold score_answer. by rewrite Hk.
    + intros Hk e Hpost.
      rewrite (score_body_raise_failed json_loads float_of_str str_of_object
                 api_key t e Hk); [done|].
      unfold score_body. by rewrite Hpost.
Qed.

End SubmitFacts.

(** [api_submit_answer_grading] on the sample database: a short answer with
    no credential configured, and a choice answered by its letter in lower
    case. *)
Lemma api_submit_answer_grading_witness :
  api_submit_answer sample_loads (fun _ => None) (fun _ => []) (fun c => [c])
    [] NoReply (ustr "2025-02-04 08:00:00") sample_db submission_short
  = (insert_answer (ustr "2025-02-04 08:00:00") sample_db 2
       (Some (ustr "a sum of values")) false,
     Ok (Graded false 0 msg_no_api_key (answer question_2) (analysis question_2)
           (q_type question_2)))
  ∧ (api_submit_answer sample_loads (fun _ => None) (fun _ => []) (fun c => [c])
       [] NoReply (ustr "2025-02-04 08:00:00") sample_db submission_choice).2
    = Ok (Graded true 0 [] (Some (ustr "A")) (Some (ustr "because"))
            (Some (ustr "single_choice"))).
Proof.
  split.
  - destruct (api_submit_answer_grading sample_loads (fun _ => None) (fun _ => [])
                (fun c => [c]) [] NoReply (ustr "2025-02-04 08:00:00") sample_db
                submission_short 2 question_2 eq_refl eq_refl) as [_ H].
    destruct (H eq_refl) as (_ & H0 & _). exact (H0 eq_refl).
  - destruct (api_submit_answer_grading sample_loads (fun _ => None) (fun _ => [])
                (fun c => [c]) [] NoReply (ustr "2025-02-04 08:00:00") sample_db
                submission_choice 1 question_1 eq_refl eq_refl) as [H _].
    rewrite H by discriminate. reflexivity.
Defined.

(** ** The latest note *)




(** ** The connection of a request *)

Lemma run_call_invariant (g : app_context) (c : call) :
  open_connections g = option_list (g_db g) ->
  open_connections (run_call g c) = option_list (g_db (run_call g c))
  ∧ (next_handle g ≤ next_handle (run_call g c))%Z.
Proof.
  intros Hinv. destruct c; simpl.
  - unfold get_db. destruct (g_db g) as [conn|] eqn:E; simpl.
    + rewrite E. split; [done | lia].
    + rewrite Hinv. simpl. split; [done | lia].
  - unfold close_db. destruct (g_db g) as [conn|] eqn:E; simpl.
    + rewrite Hinv. simpl. rewrite filter_cons_False, filter_nil by tauto.
      split; [done | lia].
    + rewrite E. split; [done | lia].
Qed.

(** X19: a request never holds more than one connection and leaves none
    behind: from a context without a connection, after any sequence of
    [get_db] and [close_db] the open connections are exactly the one stored
    in the context (if any); [get_db] returns the stored connection without
    opening another; and after a final [close_db] no connection is open and
    none is stored. *)
Theorem connection_scoped (next : Z) (calls : list call) :
  let g := run_calls (fresh_context next) calls in
  open_connections g = option_list (g_db g)
  ∧ (length (open_connections g) ≤ 1)%nat
  ∧ ((get_db (get_db g).1).1 = (get_db g).1
     ∧ (get_db (get_db g).1).2 = (get_db g).2
     ∧ open_connections (get_db g).1 = [(get_db g).2])
  ∧ open_connections (close_db g) = []
  ∧ g_db (close_db g) = None
  ∧ close_db (close_db g) = close_db g.
Proof.
  intros g.
  assert (Hinv : open_connections g = option_list (g_db g)).
  { unfold g, run_calls. generalize (fresh_context next) (eq_refl : open_connections (fresh_context next) = option_list (g_db (fresh_context next))).
    induction calls as [|c calls IH]; intros g0 H0; [done|]. simpl.
    apply IH. by apply run_call_invariant. }
  clearbody g. destruct g as [stored opened handle]. simpl in Hinv. subst opened.
  unfold get_db, close_db.
  destruct stored as [conn|]; simpl;
    rewrite ?filter_cons_False, ?filter_nil by tauto;
    split_and!; try done; lia.
Qed.
